(** * Boxing and racing back ends: TTL entity caches, rings and tracks

    Shallow embedding of the cached lookups of
    [HW/HW3 caching/boxing/boxing/models/boxers_model.py],
    the ring of [HW/HW2 Codebase/boxing/boxing/models/ring_model.py] and the
    cars and track of [HW/final_project/racing/models].

    Conventions of the model:
    - [time.time()] is an instant in [Z] (whole seconds); each call takes the
      clock reading as an argument [now].
    - A Python dict is a [gmap]; a database table is the list of its rows in
      query order, [query.get(id)] is the first row with that primary key.
    - Floating point attributes and scores are real numbers.
    - A Python call returns a [result] together with the state after it:
      [Ok v] for a normal return, [Err e] for a raised exception.
    - Every round trip to the database by primary key is recorded in a
      query log, the way a mock store records its calls. *)

From Stdlib Require Import ZArith Reals Lra Lia List String Ascii QArith Qround Sorted Permutation.
From stdpp Require Import gmap strings list.

Inductive exn := ValueError | TypeError | KeyError | AttributeError.

Inductive result (A : Type) : Type :=
| Ok (a : A)
| Err (e : exn).
Arguments Ok {A} a.
Arguments Err {A} e.

Definition instant := Z.

(** Python's [str.strip()] on ASCII text: ASCII whitespace is
    tab, newline, vertical tab, form feed, carriage return, the four
    information separators 0x1c-0x1f and space. *)
Definition is_py_space (c : ascii) : bool :=
  let n := nat_of_ascii c in
  ((9 <=? n) && (n <=? 13))%nat || ((28 <=? n) && (n <=? 32))%nat.

Fixpoint drop_spaces (l : list ascii) : list ascii :=
  match l with
  | [] => []
  | c :: l' => if is_py_space c then drop_spaces l' else l
  end.

Definition py_strip (s : string) : string :=
  string_of_list_ascii
    (rev (drop_spaces (rev (drop_spaces (list_ascii_of_string s))))).

(* ===================================================================== *)
(** ** HW3: [Boxers] with its class-level TTL cache                        *)
(* ===================================================================== *)

Module Boxing.

Record Boxers := mkBoxers {
  id : Z;
  name : string;
  weight : R;
  height : R;
  reach : R;
  age : Z;
  fights : Z;
  wins : Z;
  weight_class : string
}.

(** [_cache_ttl_seconds = 300  # 5 minutes] *)
Definition _cache_ttl_seconds : Z := 300.

(** The class attribute [_boxer_cache] (boxer_id -> (Boxers, expiry)),
    the [boxers] table, and the log of primary-key queries. *)
Record state := mkState {
  _boxer_cache : gmap Z (Boxers * instant);
  boxers_table : list Boxers;
  query_log : list Z
}.

Definition set_cache (c : gmap Z (Boxers * instant)) (st : state) : state :=
  mkState c (boxers_table st) (query_log st).

Definition set_table (t : list Boxers) (st : state) : state :=
  mkState (_boxer_cache st) t (query_log st).

(** [cls.query.get(boxer_id)]: one round trip, logged. *)
Definition query_get (boxer_id : Z) (st : state) : option Boxers * state :=
  (find (fun b => Z.eqb (id b) boxer_id) (boxers_table st),
   mkState (_boxer_cache st) (boxers_table st) (boxer_id :: query_log st)).

(** [cls.query.filter_by(name=...).first()] *)
Definition query_by_name (nm : string) (st : state) : option Boxers :=
  find (fun b => String.eqb (name b) nm) (boxers_table st).

(** The hit test of [get_boxer_by_id]:
    [cached = cls._boxer_cache.get(boxer_id)]; [if cached and now < cached[1]]. *)
Definition cache_hit (now : instant) (boxer_id : Z) (st : state) : option Boxers :=
  match _boxer_cache st !! boxer_id with
  | Some (b, expiry) => if Z.ltb now expiry then Some b else None
  | None => None
  end.

(** [Boxers.get_boxer_by_id] *)
Definition get_boxer_by_id (now : instant) (boxer_id : Z) (st : state)
  : result Boxers * state :=
  match cache_hit now boxer_id st with
  | Some b => (Ok b, st)
  | None =>
      let (ob, st1) := query_get boxer_id st in
      match ob with
      | None => (Err ValueError, st1)
      | Some b =>
          (Ok b, set_cache (<[boxer_id := (b, now + _cache_ttl_seconds)%Z]>
                              (_boxer_cache st1)) st1)
      end
  end.

(** [Boxers.get_boxer_by_name]: the [ValueError] raised for a missing name
    is caught by the [except ValueError] clause, which only logs, so the
    function falls off its end and returns [None]. *)
Definition get_boxer_by_name (nm : string) (st : state) : result (option Boxers) :=
  match query_by_name (py_strip nm) st with
  | None => Ok None
  | Some b => Ok (Some b)
  end.

(** [db.session.delete(boxer); db.session.commit()]: the row with the
    object's primary key is removed. *)
Definition session_delete (b : Boxers) (st : state) : state :=
  set_table (List.filter (fun r => negb (Z.eqb (id r) (id b))) (boxers_table st)) st.

(** [Boxers.delete] *)
Definition delete (now : instant) (boxer_id : Z) (st : state) : result unit * state :=
  let (r, st1) := get_boxer_by_id now boxer_id st in
  match r with
  | Err e => (Err e, st1)
  | Ok b =>
      let st2 := set_cache (base.delete boxer_id (_boxer_cache st1)) st1 in
      (Ok tt, session_delete b st2)
  end.

(** Every cache entry holds the boxer whose primary key is its key, as
    [get_boxer_by_id] stores it. *)
Definition cache_wf (st : state) : Prop :=
  forall k b e, _boxer_cache st !! k = Some (b, e) -> id b = k.

End Boxing.

(* ===================================================================== *)
(** ** HW2: the ring                                                       *)
(* ===================================================================== *)

(** The HW2 [Boxer] dataclass and [update_boxer_stats] live in
    [boxing/models/boxers_model.py] of HW2, and [get_random] in
    [boxing/utils/api_utils.py]; neither file is part of the sources.
    [Boxer] carries the fields [ring_model.py] reads; [update_boxer_stats]
    is a parameter of [fight] over an arbitrary store, and the draw of
    [get_random()] is an argument. *)
Module Ring.

Record Boxer := mkBoxer {
  id : Z;
  name : string;
  weight : R;
  height : R;
  reach : R;
  age : Z
}.

(** The argument of [enter_ring]: a [Boxer] instance, or another Python
    object, with or without a [name] attribute (read by the first log line
    before the [isinstance] check). *)
Inductive pyobj :=
| PyBoxer (b : Boxer)
| PyOther (has_name : bool).

(** [RingModel.enter_ring] *)
Definition enter_ring (o : pyobj) (ring : list Boxer) : result unit * list Boxer :=
  match o with
  | PyOther has_name =>
      if has_name then (Err TypeError, ring) else (Err AttributeError, ring)
  | PyBoxer b =>
      if (2 <=? length ring)%nat then (Err ValueError, ring)
      else (Ok tt, ring ++ [b])
  end.

(** [RingModel.clear_ring] *)
Definition clear_ring (ring : list Boxer) : list Boxer :=
  match ring with
  | [] => ring
  | _ => []
  end.

(** [RingModel.get_boxers] *)
Definition get_boxers (ring : list Boxer) : list Boxer := ring.

(** [RingModel.get_fighting_skill] *)
Definition get_fighting_skill (b : Boxer) : R :=
  let age_modifier :=
    if (age b <? 25)%Z then (-1)%R else if (35 <? age b)%Z then (-2)%R else 0%R in
  (weight b * INR (String.length (name b)) + reach b / 10 + age_modifier)%R.

(** [normalized_delta = 1 / (1 + math.e ** (-delta))] with
    [delta = abs(skill_1 - skill_2)]. *)
Definition normalized_delta (skill_1 skill_2 : R) : R :=
  (1 / (1 + exp (- Rabs (skill_1 - skill_2))))%R.

(** The winner and the loser: [if random_number < normalized_delta]. *)
Definition pick (boxer_1 boxer_2 : Boxer) (random_number : R) : Boxer * Boxer :=
  if Rlt_dec random_number
       (normalized_delta (get_fighting_skill boxer_1) (get_fighting_skill boxer_2))
  then (boxer_1, boxer_2) else (boxer_2, boxer_1).

Section Fight.
Context {DB : Type}.
Variable update_boxer_stats : Z -> string -> DB -> result unit * DB.

(** [RingModel.fight]; [random_number] is the value of [get_random()]. *)
Definition fight (random_number : R) (ring : list Boxer) (db : DB)
  : result string * list Boxer * DB :=
  if (length ring <? 2)%nat then (Err ValueError, ring, db) else
  match get_boxers ring with
  | [boxer_1; boxer_2] =>
      let '(winner, loser) := pick boxer_1 boxer_2 random_number in
      match update_boxer_stats (id winner) "win" db with
      | (Err e, db1) => (Err e, ring, db1)
      | (Ok _, db1) =>
          match update_boxer_stats (id loser) "loss" db1 with
          | (Err e, db2) => (Err e, ring, db2)
          | (Ok _, db2) => (Ok (name winner), clear_ring ring, db2)
          end
      end
  | _ => (Err ValueError, ring, db)   (* [boxer_1, boxer_2 = ...] unpacking *)
  end.

End Fight.

End Ring.

(* ===================================================================== *)
(** ** Final project: cars and the track with its per-instance TTL cache   *)
(* ===================================================================== *)

(** [get_random] of [racing/utils/api_utils.py] is not part of the sources;
    its draw is an argument of [race]. *)
Module Racing.

Record Cars := mkCars {
  id : Z;
  make : string;
  model : string;
  year : Z;
  horsepower : Z;
  weight : R;
  zero_to_sixty : R;
  top_speed : Z;
  handling : Z;
  car_class : string;
  races : Z;
  wins : Z
}.

(** A [TrackModel] instance ([track], [_car_cache], [_ttl], [ttl_seconds])
    next to the [cars] table and the log of primary-key queries. *)
Record world := mkWorld {
  track : list Z;
  _car_cache : gmap Z Cars;
  _ttl : gmap Z instant;
  ttl_seconds : Z;
  cars_table : list Cars;
  query_log : list Z
}.

Definition set_track (t : list Z) (w : world) : world :=
  mkWorld t (_car_cache w) (_ttl w) (ttl_seconds w) (cars_table w) (query_log w).

Definition set_cache (c : gmap Z Cars) (ttl : gmap Z instant) (w : world) : world :=
  mkWorld (track w) c ttl (ttl_seconds w) (cars_table w) (query_log w).

Definition set_table (t : list Cars) (w : world) : world :=
  mkWorld (track w) (_car_cache w) (_ttl w) (ttl_seconds w) t (query_log w).

(** [Cars.get_car_by_id]: [cls.query.get(car_id)], logged; [ValueError]
    when there is no such row. *)
Definition get_car_by_id (car_id : Z) (w : world) : result Cars * world :=
  let w1 := mkWorld (track w) (_car_cache w) (_ttl w) (ttl_seconds w)
                    (cars_table w) (car_id :: query_log w) in
  match find (fun c => Z.eqb (id c) car_id) (cars_table w) with
  | None => (Err ValueError, w1)
  | Some car => (Ok car, w1)
  end.

(** [Cars.delete]: the table loses the row; nothing else is touched. *)
Definition delete (car_id : Z) (w : world) : result unit * world :=
  match get_car_by_id car_id w with
  | (Err e, w1) => (Err e, w1)
  | (Ok car, w1) =>
      (Ok tt, set_table (List.filter (fun r => negb (Z.eqb (id r) (id car)))
                                (cars_table w1)) w1)
  end.

(** [Cars.update_stats]: the ORM object is updated in place (the row of
    its primary key) before the [wins > races] check. The object is the
    value [car]: two updates through two copies of one car (a track
    [[k; k]] racing a car against itself) both start from that value,
    where Python's shared object would accumulate them. *)
Definition update_stats (car : Cars) (res : string) (w : world) : result unit * world :=
  if negb (String.eqb res "win" || String.eqb res "loss") then (Err ValueError, w) else
  let car' := mkCars (id car) (make car) (model car) (year car) (horsepower car)
                (weight car) (zero_to_sixty car) (top_speed car) (handling car)
                (car_class car) (races car + 1)
                (if String.eqb res "win" then wins car + 1 else wins car) in
  let w' := set_table (map (fun r => if Z.eqb (id r) (id car) then car' else r)
                           (cars_table w)) w in
  if Z.ltb (races car') (wins car') then (Err ValueError, w') else (Ok tt, w').

(** [TrackModel.clear_track] *)
Definition clear_track (w : world) : world :=
  match track w with
  | [] => w
  | _ => set_track [] w
  end.

(** [TrackModel.clear_cache] *)
Definition clear_cache (w : world) : world := set_cache ∅ ∅ w.

(** The log line of [enter_track]: for each id on the track,
    [Cars.get_car_by_id(c).make] and then [Cars.get_car_by_id(c).model]. *)
Fixpoint log_cars (ids : list Z) (w : world) : result unit * world :=
  match ids with
  | [] => (Ok tt, w)
  | c :: rest =>
      match get_car_by_id c w with
      | (Err e, w1) => (Err e, w1)
      | (Ok _, w1) =>
          match get_car_by_id c w1 with
          | (Err e, w2) => (Err e, w2)
          | (Ok _, w2) => log_cars rest w2
          end
      end
  end.

(** [TrackModel.enter_track] *)
Definition enter_track (now : instant) (car_id : Z) (w : world) : result unit * world :=
  if (2 <=? length (track w))%nat then (Err ValueError, w) else
  match get_car_by_id car_id w with
  | (Err e, w1) => (Err e, w1)
  | (Ok car, w1) =>
      let w2 := set_track (track w1 ++ [car_id]) w1 in
      let w3 := set_cache (<[car_id := car]> (_car_cache w2))
                          (<[car_id := (now + ttl_seconds w2)%Z]> (_ttl w2)) w2 in
      log_cars (track w3) w3
  end.

(** The expiry test of [get_cars]:
    [car_id not in self._ttl or self._ttl[car_id] < now]. *)
Definition expired (now : instant) (car_id : Z) (w : world) : bool :=
  match _ttl w !! car_id with
  | None => true
  | Some e => Z.ltb e now
  end.

(** One iteration of the loop of [get_cars]. *)
Definition get_cars_step (now : instant) (car_id : Z) (w : world) : result Cars * world :=
  if expired now car_id w then
    match get_car_by_id car_id w with
    | (Err e, w1) => (Err e, w1)
    | (Ok car, w1) =>
        (Ok car, set_cache (<[car_id := car]> (_car_cache w1))
                           (<[car_id := (now + ttl_seconds w1)%Z]> (_ttl w1)) w1)
    end
  else
    match _car_cache w !! car_id with
    | Some car => (Ok car, w)
    | None => (Err KeyError, w)        (* [self._car_cache[car_id]] *)
    end.

Fixpoint get_cars_loop (now : instant) (ids : list Z) (w : world)
  : result (list Cars) * world :=
  match ids with
  | [] => (Ok [], w)
  | k :: rest =>
      match get_cars_step now k w with
      | (Err e, w1) => (Err e, w1)
      | (Ok car, w1) =>
          match get_cars_loop now rest w1 with
          | (Err e, w2) => (Err e, w2)
          | (Ok cars, w2) => (Ok (car :: cars), w2)
          end
      end
  end.

(** [TrackModel.get_cars]; the clock is read once for the call. *)
Definition get_cars (now : instant) (w : world) : result (list Cars) * world :=
  match track w with
  | [] => (Ok [], w)
  | ids => get_cars_loop now ids w
  end.

(** [TrackModel.get_performance_score] *)
Definition get_performance_score (car : Cars) : R :=
  let power_to_weight := (IZR (horsepower car) / weight car * 1000)%R in
  let acceleration_factor := (10 / zero_to_sixty car)%R in
  let year_factor := ((IZR (year car) - 1950) / 70)%R in
  (power_to_weight * 0.4 + acceleration_factor * 20 + (IZR (top_speed car) / 200) * 20
   + (IZR (handling car) / 10) * 15 + year_factor * 5)%R.

(** [normalized_delta = 1 / (1 + math.e ** (-delta / 100))], on reals:
    in doubles the value is exactly 1.0 once [delta] exceeds some 3700,
    while here it stays below 1. *)
Definition normalized_delta (perf_1 perf_2 : R) : R :=
  (1 / (1 + exp (- Rabs (perf_1 - perf_2) / 100)))%R.

(** [win_probability = 0.5 + normalized_delta/2] (the same in both branches). *)
Definition win_probability (perf_1 perf_2 : R) : R :=
  (0.5 + normalized_delta perf_1 perf_2 / 2)%R.

(** The winner and the loser chosen by [race]. *)
Definition race_pick (perf_1 perf_2 random_number : R) (car_1 car_2 : Cars) : Cars * Cars :=
  if Rlt_dec perf_2 perf_1 then
    if Rlt_dec random_number (win_probability perf_1 perf_2)
    then (car_1, car_2) else (car_2, car_1)
  else
    if Rlt_dec random_number (win_probability perf_1 perf_2)
    then (car_2, car_1) else (car_1, car_2).

(** [TrackModel.race] with the score function as an argument (the test
    suite patches [get_performance_score]); [random_number] is the value
    of [get_random()]. *)
Definition race_with (score : Cars -> R) (now : instant) (random_number : R) (w : world)
  : result string * world :=
  if (length (track w) <? 2)%nat then (Err ValueError, w) else
  match get_cars now w with
  | (Err e, w1) => (Err e, w1)
  | (Ok [car_1; car_2], w1) =>
      let '(winner, loser) := race_pick (score car_1) (score car_2) random_number car_1 car_2 in
      match update_stats winner "win" w1 with
      | (Err e, w2) => (Err e, w2)
      | (Ok _, w2) =>
          match update_stats loser "loss" w2 with
          | (Err e, w3) => (Err e, w3)
          | (Ok _, w3) =>
              (Ok (String.append (make winner) (String.append " " (model winner))),
               clear_track w3)
          end
      end
  | (Ok _, w1) => (Err ValueError, w1)   (* [car_1, car_2 = self.get_cars()] *)
  end.

(** [TrackModel.race] *)
Definition race (now : instant) (random_number : R) (w : world) : result string * world :=
  race_with get_performance_score now random_number w.

End Racing.

(* ===================================================================== *)
(** ** The rest of the models                                              *)
(* ===================================================================== *)

(** Python's [list.sort(key=..., reverse=True)]: a stable sort into
    descending key order (rows with equal keys keep their order), as
    insertion of each element after every element whose key is at least
    its own. Keys are compared exactly (a double is an exact rational). *)
Module PySort.

Section Sort.
Context {A : Type}.
Variable key : A -> Q.

Fixpoint insert_desc (x : A) (l : list A) : list A :=
  match l with
  | [] => [x]
  | y :: l' => if Qle_bool (key x) (key y) then y :: insert_desc x l' else x :: l
  end.

Definition sort_desc (l : list A) : list A :=
  fold_left (fun acc x => insert_desc x acc) l [].

End Sort.

(** An exact rational rounded to an integer, ties to the even one. *)
Definition round_half_even (q : Q) : Z :=
  let fl := Qfloor q in
  let frac := (q - inject_Z fl)%Q in
  if Qlt_le_dec frac (1 # 2) then fl
  else if Qeq_bool frac (1 # 2) then (if Z.even fl then fl else fl + 1)%Z
  else (fl + 1)%Z.

End PySort.

(** IEEE 754 binary64 arithmetic on exact values: [binary64 q] is the
    double nearest to [q], ties to even significand, with subnormals
    (quantum at least [2^-1074]). Overflow is not modelled: the values
    rounded here stay far below [2^1024]. *)
Module Binary64.

Definition pow2 (e : Z) : Q :=
  if Z.leb 0 e then inject_Z (2 ^ e) else (1 # Z.to_pos (2 ^ (- e))).

(** [floor(log2 (a / b))] for [a > 0]. *)
Definition fexp (a : Z) (b : positive) : Z :=
  let e0 := (Z.log2 a - Z.log2 (Zpos b))%Z in
  if Qle_bool (pow2 e0) (a # b) then e0 else (e0 - 1)%Z.

(** The quantum exponent of [a / b]: 53 significant bits. *)
Definition qexp (a : Z) (b : positive) : Z := Z.max (fexp a b - 52) (-1074).

Definition round_pos (a : Z) (b : positive) : Q :=
  let e := qexp a b in
  (inject_Z (PySort.round_half_even ((a # b) * pow2 (- e))) * pow2 e)%Q.

Definition binary64 (q : Q) : Q :=
  match Qnum q with
  | Z0 => 0%Q
  | Zpos a => round_pos (Zpos a) (Qden q)
  | Zneg a => (- round_pos (Zpos a) (Qden q))%Q
  end.

(** [x / y] and [x * y] on doubles (and [int / int], correctly rounded). *)
Definition div (x y : Q) : Q := binary64 (x / y).
Definition mul (x y : Q) : Q := binary64 (x * y).

(** [round(x, 1)] on a double: the exact binary value rounded to one
    decimal, ties to even, and read back as the nearest double. *)
Definition round1 (x : Q) : Q :=
  binary64 (inject_Z (PySort.round_half_even (x * 10)) / 10)%Q.

End Binary64.

Module BoxingMore.
Import Boxing.

(** [Boxers.get_weight_class] *)
Definition get_weight_class (weight : R) : result string :=
  if Rle_dec 203 weight then Ok "HEAVYWEIGHT"
  else if Rle_dec 166 weight then Ok "MIDDLEWEIGHT"
  else if Rle_dec 133 weight then Ok "LIGHTWEIGHT"
  else if Rle_dec 125 weight then Ok "FEATHERWEIGHT"
  else Err ValueError.

(** Exceptions of [create_boxer]: those of the model, and [NameError].
    [boxers_model.py] imports only [SQLAlchemyError] from [sqlalchemy.exc],
    so the name [IntegrityError] is unbound there. *)
Inductive py_exn := Exn (e : exn) | NameError.

Inductive outcome := Returned | Raised (e : py_exn).

(** The body of the [try] of [create_boxer]: [None] when it reaches
    [db.session.add], or the exception it raises. *)
Definition create_boxer_body (nm : string) (weight height reach : R) (age : Z)
  (st : state) : option py_exn :=
  match get_weight_class weight with          (* [Boxers(...)] *)
  | Err e => Some (Exn e)
  | Ok _ =>
      match query_by_name (py_strip nm) st with
      | Some _ => Some NameError              (* [raise IntegrityError(...)] *)
      | None =>
          if Rlt_dec weight 125 then Some (Exn ValueError)
          else if Rle_dec height 0 then Some (Exn ValueError)
          else if Rle_dec reach 0 then Some (Exn ValueError)
          else if ((age <? 18) || (40 <? age))%Z then Some (Exn ValueError)
          else None
      end
  end.

(** [Boxers.create_boxer]; [new_id] is the key the database assigns to the
    new row. Whatever the body raises, matching it against the first
    handler, [except IntegrityError:], evaluates the unbound name and
    raises [NameError]; the rollbacks are never reached. *)
Definition create_boxer (new_id : Z) (nm : string) (weight height reach : R) (age : Z)
  (st : state) : outcome * state :=
  match create_boxer_body nm weight height reach age st with
  | Some _ => (Raised NameError, st)
  | None =>
      match get_weight_class weight with
      | Err _ => (Raised NameError, st)
      | Ok wc =>
          (Returned,
           set_table (boxers_table st ++
                      [mkBoxers new_id (py_strip nm) weight height reach age 0 0 wc]) st)
      end
  end.

(** [Boxers.get_boxer_for_fight] *)
Definition get_boxer_for_fight (now : instant) (boxer_id : Z) (st : state)
  : result Boxers * state :=
  let cached := _boxer_cache st !! boxer_id in
  let hit := match cached with
             | Some (boxer, expiry) => if Z.ltb now expiry then Some boxer else None
             | None => None
             end in
  match hit with
  | Some boxer => (Ok boxer, st)
  | None =>
      let (ob, st1) := query_get boxer_id st in
      match ob with
      | None => (Err ValueError, st1)
      | Some boxer =>
          (Ok boxer, set_cache (<[boxer_id := (boxer, now + _cache_ttl_seconds)%Z]>
                                  (_boxer_cache st1)) st1)
      end
  end.

(* [Boxers.update_stats] is declared [@classmethod]: [self] is the class,
   and its body assigns SQL expressions to the class's column attributes.
   It is not modelled. *)

(** A leaderboard row: the boxer's columns and its [win_pct]. *)
Record entry := mkEntry { row : Boxers; win_pct : Q }.

(** [round((b.wins / b.fights) * 100, 1) if b.fights > 0 else 0.0],
    each operation on doubles. *)
Definition compute_win_pct (b : Boxers) : Q :=
  if Z.ltb 0 (fights b)
  then Binary64.round1 (Binary64.mul (Binary64.div (inject_Z (wins b)) (inject_Z (fights b))) 100)
  else 0%Q.

Definition sort_key (sort_by : string) (e : entry) : Q :=
  if String.eqb sort_by "wins" then inject_Z (wins (row e)) else win_pct e.

(** [Boxers.get_leaderboard] *)
Definition get_leaderboard (sort_by : string) (st : state) : result (list entry) :=
  if negb (String.eqb sort_by "wins" || String.eqb sort_by "win_pct") then Err ValueError else
  let boxers := List.filter (fun b => Z.ltb 0 (fights b)) (boxers_table st) in
  let leaderboard := map (fun b => mkEntry b (compute_win_pct b)) boxers in
  Ok (PySort.sort_desc (sort_key sort_by) leaderboard).

End BoxingMore.

Module RacingMore.
Import Racing.

(** [Cars.get_car_class] *)
Definition get_car_class (horsepower : Z) (weight : R) : result string :=
  if Z.leb horsepower 0 then Err ValueError
  else if Rle_dec weight 0 then Err ValueError
  else
    let power_to_weight := (IZR horsepower / weight * 1000)%R in
    if Rlt_dec power_to_weight 100 then Ok "Economy"
    else if Rlt_dec power_to_weight 200 then Ok "Sport"
    else if Rlt_dec power_to_weight 300 then Ok "Super"
    else Ok "Hyper".

(** The validation of [Cars.create_car]: [true] when it raises. *)
Definition create_car_invalid (make model : string) (year horsepower : Z)
  (weight zero_to_sixty : R) (top_speed handling : Z) : bool :=
  (String.eqb make "" || String.eqb model ""
   || (year <? 1950) || (2025 <? year)
   || (horsepower <=? 0)
   || (if Rle_dec weight 0 then true else false)
   || (if Rle_dec zero_to_sixty 0 then true else false)
   || (top_speed <=? 0)
   || (handling <? 1) || (10 <? handling))%Z.

(** [Cars.create_car]; [new_id] is the key the database assigns. The
    table has no unique column besides the key, so the [IntegrityError]
    handler is not reached. *)
Definition create_car (new_id : Z) (make model : string) (year horsepower : Z)
  (weight zero_to_sixty : R) (top_speed handling : Z) (w : world) : result unit * world :=
  if create_car_invalid make model year horsepower weight zero_to_sixty top_speed handling
  then (Err ValueError, w) else
  match get_car_class horsepower weight with
  | Err e => (Err e, w)
  | Ok cls =>
      (Ok tt, set_table (cars_table w ++
                         [mkCars new_id make model year horsepower weight zero_to_sixty
                                 top_speed handling cls 0 0]) w)
  end.

(** [Cars.get_car_by_make_model] *)
Definition get_car_by_make_model (mk md : string) (w : world) : result Cars :=
  match find (fun c => String.eqb (make c) mk && String.eqb (model c) md) (cars_table w) with
  | None => Err ValueError
  | Some car => Ok car
  end.

Record entry := mkEntry { row : Cars; win_pct : Q }.

(** [round((c.wins / c.races) * 100, 1) if c.races > 0 else 0.0],
    each operation on doubles. *)
Definition compute_win_pct (c : Cars) : Q :=
  if Z.ltb 0 (races c)
  then Binary64.round1 (Binary64.mul (Binary64.div (inject_Z (wins c)) (inject_Z (races c))) 100)
  else 0%Q.

Definition sort_key (sort_by : string) (e : entry) : Q :=
  if String.eqb sort_by "wins" then inject_Z (wins (row e)) else win_pct e.

(** [Cars.get_leaderboard] *)
Definition get_leaderboard (sort_by : string) (w : world) : result (list entry) :=
  if negb (String.eqb sort_by "wins" || String.eqb sort_by "win_pct") then Err ValueError else
  let cars := List.filter (fun c => Z.ltb 0 (races c)) (cars_table w) in
  let leaderboard := map (fun c => mkEntry c (compute_win_pct c)) cars in
  Ok (PySort.sort_desc (sort_key sort_by) leaderboard).

(** A call of a public method of [TrackModel] on one instance (the
    routes of [app.py] call [enter_track], [race] and [clear_track] on the
    instance [create_app] builds). A call that raises leaves the instance
    as the exception found it. *)
Inductive track_call :=
| EnterTrack (now : instant) (car_id : Z)
| Race (now : instant) (random_number : R)
| ClearTrack
| ClearCache
| GetCars (now : instant).

Definition track_call_run (c : track_call) (w : world) : world :=
  match c with
  | EnterTrack now car_id => snd (enter_track now car_id w)
  | Race now random_number => snd (race now random_number w)
  | ClearTrack => clear_track w
  | ClearCache => clear_cache w
  | GetCars now => snd (get_cars now w)
  end.

Definition run_calls (cs : list track_call) (w : world) : world :=
  fold_left (fun w c => track_call_run c w) cs w.

End RacingMore.

(* ===================================================================== *)
(** ** Concrete states                                                     *)
(* ===================================================================== *)

Module Fixtures.

Local Open Scope Z_scope.

(** A boxer put in the boxing cache at [t0 = 0]: its entry expires at
    [0 + _cache_ttl_seconds = 300]. *)
Definition ali : Boxing.Boxers :=
  Boxing.mkBoxers 1 "Ali" 210 75 78 30 0 0 "HEAVYWEIGHT".

Definition boxing_cached : Boxing.state :=
  Boxing.mkState {[1%Z := (ali, 300%Z)]} [ali] [].

Definition boxing_empty : Boxing.state :=
  Boxing.mkState ∅ [ali] [].

(** Cars of the test suite (handling rounded to an integer column). *)
Definition ferrari : Racing.Cars :=
  Racing.mkCars 1 "Ferrari" "F8 Tributo" 2020 710 1435 (29 / 10) 211 9 "Hyper" 0 0.

Definition lambo : Racing.Cars :=
  Racing.mkCars 2 "Lamborghini" "Huracan EVO" 2021 631 1422 (29 / 10) 202 9 "Hyper" 0 0.

(** A track with [ttl_seconds = 60] whose car 1 was entered at [t0 = 0]:
    its [_ttl] entry is [0 + 60]. *)
Definition track_one : Racing.world :=
  Racing.mkWorld [1] {[1%Z := ferrari]} {[1%Z := 60%Z]} 60 [ferrari] [].

Definition track_one_lambo_row : Racing.world :=
  Racing.mkWorld [1] {[1 := ferrari]} {[1 := 60]} 60 [ferrari; lambo] [].

Definition track_empty : Racing.world :=
  Racing.mkWorld [] ∅ ∅ 60 [ferrari; lambo] [].

(** The track of the race scenario: cars 7 and 12, both entered at
    [t0 = 0] with [ttl_seconds = 60]. *)
Definition car7 : Racing.Cars :=
  Racing.mkCars 7 "Ferrari" "F8 Tributo" 2020 710 1435 (29 / 10) 211 9 "Hyper" 0 0.

Definition car12 : Racing.Cars :=
  Racing.mkCars 12 "Lamborghini" "Huracan EVO" 2021 631 1422 (29 / 10) 202 9 "Hyper" 0 0.

Definition track_7_12 : Racing.world :=
  Racing.mkWorld [7; 12] {[7%Z := car7; 12%Z := car12]} {[7%Z := 60%Z; 12%Z := 60%Z]} 60
                 [car7; car12] [].

(** The injected score of the scenario: 500 for car 7, 400 otherwise. *)
Definition scenario_score (c : Racing.Cars) : R :=
  if Z.eqb (Racing.id c) 7 then 500%R else 400%R.

(** Two ring boxers; the second has the far higher fighting skill. *)
Definition al : Ring.Boxer := Ring.mkBoxer 1 "Al" 130 68 70 30.
Definition bob : Ring.Boxer := Ring.mkBoxer 2 "Bob" 200 74 80 30.

(** A store for [update_boxer_stats]: fight and win counts per id. *)
Definition stats_store := list (Z * (Z * Z)).

Definition update_boxer_stats_list (boxer_id : Z) (res : string) (db : stats_store)
  : result unit * stats_store :=
  (Ok tt, map (fun '(k, (f, w)) =>
                 if Z.eqb k boxer_id
                 then (k, (f + 1, if String.eqb res "win" then w + 1 else w))%Z
                 else (k, (f, w))) db).

(** Cars 1 and 2 on a track whose caches are empty. *)
Definition track_two_cold : Racing.world :=
  Racing.mkWorld [1; 2] ∅ ∅ 60 [ferrari; lambo] [].

(** Car 1 on the track and in its cache, its row since deleted; car 2
    has its row. *)
Definition track_one_deleted : Racing.world :=
  Racing.mkWorld [1] {[1 := ferrari]} {[1 := 60]} 60 [lambo] [].

(** A league: boxers and cars with some bouts and races behind them. *)
Definition boxing_league : Boxing.state :=
  Boxing.mkState ∅
    [Boxing.mkBoxers 1 "Ali" 210 75 78 30 5 4 "HEAVYWEIGHT";
     Boxing.mkBoxers 2 "Frazier" 205 71 73 27 4 2 "HEAVYWEIGHT";
     Boxing.mkBoxers 3 "Foreman" 220 75 79 25 0 0 "HEAVYWEIGHT";
     Boxing.mkBoxers 4 "Norton" 212 75 80 29 8 4 "HEAVYWEIGHT"] [].

Definition racing_league : Racing.world :=
  Racing.mkWorld [] ∅ ∅ 60
    [Racing.mkCars 1 "Ferrari" "F8 Tributo" 2020 710 1435 (29 / 10) 211 9 "Hyper" 3 1;
     Racing.mkCars 2 "Lamborghini" "Huracan EVO" 2021 631 1422 (29 / 10) 202 9 "Hyper" 3 2;
     Racing.mkCars 3 "Ford" "GT" 2020 660 1385 3 216 8 "Hyper" 0 0] [].

End Fixtures.

(* ===================================================================== *)
(** ** Facts about the boxing cache                                        *)
(* ===================================================================== *)

Module BoxingFacts.
Import Boxing.

Lemma find_id_some (l : list Boxers) (k : Z) (b : Boxers) :
  find (fun b => Z.eqb (id b) k) l = Some b -> id b = k.
Proof. intros H. apply find_some in H as [_ H]. now apply Z.eqb_eq. Qed.

Lemma find_id_filter (l : list Boxers) (k : Z) :
  find (fun b => Z.eqb (id b) k) (List.filter (fun r => negb (Z.eqb (id r) k)) l) = None.
Proof.
  induction l as [|r l IH]; simpl; [done|].
  destruct (Z.eqb (id r) k) eqn:E; simpl; [done|]. now rewrite E.
Qed.

Lemma find_id_none (l : list Boxers) (nm : string) :
  (forall b, In b l -> name b <> nm) -> find (fun b => String.eqb (name b) nm) l = None.
Proof.
  induction l as [|r l IH]; intros Hl; simpl; [done|].
  destruct (String.eqb (name r) nm) eqn:E.
  - apply String.eqb_eq in E. exfalso. apply (Hl r); [left|]; done.
  - apply IH. intros b Hb. apply Hl. now right.
Qed.

(** TTL of the boxing cache: an entry put at [t0] is served strictly
    before [t0 + _cache_ttl_seconds]. *)
Lemma get_boxer_by_id_live (now t0 : instant) (k : Z) (st : state) (v : Boxers) :
  _boxer_cache st !! k = Some (v, t0 + _cache_ttl_seconds)%Z ->
  (now < t0 + _cache_ttl_seconds)%Z ->
  get_boxer_by_id now k st = (Ok v, st).
Proof.
  intros Hc Hlt. unfold get_boxer_by_id, cache_hit. rewrite Hc.
  apply Z.ltb_lt in Hlt. now rewrite Hlt.
Qed.

(** ... and from [t0 + _cache_ttl_seconds] on the lookup falls through to
    the table. *)
Lemma get_boxer_by_id_lapsed (now t0 : instant) (k : Z) (st : state) (v : Boxers) :
  _boxer_cache st !! k = Some (v, t0 + _cache_ttl_seconds)%Z ->
  (t0 + _cache_ttl_seconds <= now)%Z ->
  cache_hit now k st = None.
Proof.
  intros Hc Hle. unfold cache_hit. rewrite Hc.
  destruct (Z.ltb_spec now (t0 + _cache_ttl_seconds)); [lia|done].
Qed.

Lemma cache_hit_later (now now' : instant) (k : Z) (st : state) :
  cache_hit now k st = None -> (now <= now')%Z -> cache_hit now' k st = None.
Proof.
  unfold cache_hit. destruct (_boxer_cache st !! k) as [[b e]|]; [|done].
  destruct (Z.ltb_spec now e); [done|]. intros _ Hle.
  destruct (Z.ltb_spec now' e); [lia|done].
Qed.

Lemma get_boxer_by_id_miss (now : instant) (k : Z) (st : state) :
  cache_hit now k st = None ->
  get_boxer_by_id now k st =
    match find (fun b => Z.eqb (id b) k) (boxers_table st) with
    | None => (Err ValueError, mkState (_boxer_cache st) (boxers_table st) (k :: query_log st))
    | Some b => (Ok b, mkState (<[k := (b, now + _cache_ttl_seconds)%Z]> (_boxer_cache st))
                               (boxers_table st) (k :: query_log st))
    end.
Proof.
  intros H. unfold get_boxer_by_id. rewrite H. unfold query_get. simpl.
  destruct (find _ _); reflexivity.
Qed.

End BoxingFacts.

(* ===================================================================== *)
(** ** Facts about cars and the track                                      *)
(* ===================================================================== *)

Module RacingFacts.
Import Racing.

Lemma find_car_id_some (l : list Cars) (k : Z) (c : Cars) :
  find (fun c => Z.eqb (id c) k) l = Some c -> id c = k.
Proof. intros H. apply find_some in H as [_ H]. now apply Z.eqb_eq. Qed.

Lemma find_car_id_filter (l : list Cars) (k : Z) :
  find (fun c => Z.eqb (id c) k) (List.filter (fun r => negb (Z.eqb (id r) k)) l) = None.
Proof.
  induction l as [|r l IH]; simpl; [done|].
  destruct (Z.eqb (id r) k) eqn:E; simpl; [done|]. now rewrite E.
Qed.

(** The track's expiry test keeps an entry live up to and including its
    expiry instant. *)
Lemma expired_false (now : instant) (k : Z) (w : world) :
  expired now k w = false <-> exists e, _ttl w !! k = Some e /\ (now <= e)%Z.
Proof.
  unfold expired. destruct (_ttl w !! k) as [e|].
  - split.
    + intros H. exists e. split; [done|]. apply Z.ltb_ge in H. lia.
    + intros [e' [[= <-] He]]. apply Z.ltb_ge. lia.
  - split; [done|]. intros [e [[=] _]].
Qed.

Lemma get_cars_step_live (k : Z) (w : world) (e : instant) (car : Cars) (now : instant) :
  _ttl w !! k = Some e -> _car_cache w !! k = Some car -> (now <= e)%Z ->
  get_cars_step now k w = (Ok car, w).
Proof.
  intros Ht Hc Hle. unfold get_cars_step.
  assert (expired now k w = false) as -> by (apply expired_false; eauto).
  now rewrite Hc.
Qed.

Lemma track_clear_track (w : world) : track (clear_track w) = [].
Proof. unfold clear_track. destruct (track w) eqn:E; done. Qed.

End RacingFacts.

(* ===================================================================== *)
(** ** The cached lookups                                                  *)
(* ===================================================================== *)

Open Scope Z_scope.

(** C1 (TTL correctness at the boundary instant [now = t0 + d]).
    The boxing cache entry of boxer 1 put at [t0 = 0] with
    [d = _cache_ttl_seconds = 300] is no longer served at [now = 300]: the
    lookup goes to the table (one logged query). The track's car 1, cached
    at [t0 = 0] with [d = ttl_seconds = 60], is still served from the
    track's cache at [now = 60], with no query: [get_cars] tests
    [self._ttl[car_id] < now], so the entry stays live at its expiry
    instant. *)
Theorem ttl_expiry_boundary :
  Boxing.cache_hit 300 1 Fixtures.boxing_cached = None /\
  Boxing.query_log (snd (Boxing.get_boxer_by_id 300 1 Fixtures.boxing_cached)) = [1%Z] /\
  Racing.get_cars 60 Fixtures.track_one = (Ok [Fixtures.ferrari], Fixtures.track_one).
Proof. split; [reflexivity|split; reflexivity]. Qed.

(** C3 (cache fill on a miss). When there is no live cache entry for [k]
    and the table holds [v] under [k], one [get_boxer_by_id] returns [v]
    after exactly one query and leaves [(v, now + 300)] in the cache; every
    later lookup before [now + 300] returns [v] with no query and no change
    of state. The same holds for one iteration of the track's [get_cars]
    with the track's [ttl_seconds]. *)
Theorem cache_fill_on_miss :
  (forall (now : instant) (k : Z) (st : Boxing.state) (v : Boxing.Boxers),
     Boxing.cache_hit now k st = None ->
     find (fun b => Z.eqb (Boxing.id b) k) (Boxing.boxers_table st) = Some v ->
     exists st',
       Boxing.get_boxer_by_id now k st = (Ok v, st') /\
       Boxing.query_log st' = k :: Boxing.query_log st /\
       Boxing._boxer_cache st' !! k = Some (v, now + Boxing._cache_ttl_seconds)%Z /\
       forall now', (now' < now + Boxing._cache_ttl_seconds)%Z ->
         Boxing.get_boxer_by_id now' k st' = (Ok v, st')) /\
  (forall (now : instant) (k : Z) (w : Racing.world) (v : Racing.Cars),
     Racing.expired now k w = true ->
     find (fun c => Z.eqb (Racing.id c) k) (Racing.cars_table w) = Some v ->
     exists w',
       Racing.get_cars_step now k w = (Ok v, w') /\
       Racing.query_log w' = k :: Racing.query_log w /\
       Racing._car_cache w' !! k = Some v /\
       forall now', (now' < now + Racing.ttl_seconds w)%Z ->
         Racing.get_cars_step now' k w' = (Ok v, w')).
Proof.
  split.
  - intros now k st v Hmiss Hfind.
    rewrite (BoxingFacts.get_boxer_by_id_miss now k st Hmiss), Hfind.
    eexists. split; [reflexivity|]. simpl. split; [done|].
    split; [apply lookup_insert_eq|].
    intros now' Hlt. eapply BoxingFacts.get_boxer_by_id_live; [|exact Hlt].
    simpl. apply lookup_insert_eq.
  - intros now k w v Hexp Hfind.
    unfold Racing.get_cars_step. rewrite Hexp. unfold Racing.get_car_by_id.
    rewrite Hfind. eexists. split; [reflexivity|]. simpl. split; [done|].
    split; [apply lookup_insert_eq|].
    intros now' Hlt. eapply RacingFacts.get_cars_step_live; simpl;
      [apply lookup_insert_eq|apply lookup_insert_eq|lia].
Qed.

Lemma cache_fill_on_miss_witness :
  (exists st',
     Boxing.get_boxer_by_id 0 1 Fixtures.boxing_empty = (Ok Fixtures.ali, st') /\
     Boxing.query_log st' = [1%Z] /\
     Boxing._boxer_cache st' !! 1%Z = Some (Fixtures.ali, 300%Z) /\
     forall now', (now' < 300)%Z -> Boxing.get_boxer_by_id now' 1 st' = (Ok Fixtures.ali, st')) /\
  (exists w',
     Racing.get_cars_step 0 1 Fixtures.track_empty = (Ok Fixtures.ferrari, w') /\
     Racing.query_log w' = [1%Z] /\
     Racing._car_cache w' !! 1%Z = Some Fixtures.ferrari /\
     forall now', (now' < 60)%Z -> Racing.get_cars_step now' 1 w' = (Ok Fixtures.ferrari, w')).
Proof.
  split.
  - exact (proj1 cache_fill_on_miss 0 1 Fixtures.boxing_empty Fixtures.ali
             eq_refl eq_refl).
  - exact (proj2 cache_fill_on_miss 0 1 Fixtures.track_empty Fixtures.ferrari
             eq_refl eq_refl).
Defined.

(** C4 (where [NotFound] comes from). [get_boxer_by_id] raises, and only
    [ValueError], exactly when there is no live cache entry and the table
    has no row for the key; [Cars.get_car_by_id] raises, and only
    [ValueError], exactly when the table has no row. The cache hit test
    itself is a total function to an option: a miss or an expired entry is
    [None]. *)
Theorem not_found_iff_store_absent :
  (forall (now : instant) (k : Z) (st : Boxing.state),
     fst (Boxing.get_boxer_by_id now k st) = Err ValueError <->
     Boxing.cache_hit now k st = None /\
     find (fun b => Z.eqb (Boxing.id b) k) (Boxing.boxers_table st) = None) /\
  (forall (now : instant) (k : Z) (st : Boxing.state) (e : exn),
     fst (Boxing.get_boxer_by_id now k st) = Err e -> e = ValueError) /\
  (forall (k : Z) (w : Racing.world),
     fst (Racing.get_car_by_id k w) = Err ValueError <->
     find (fun c => Z.eqb (Racing.id c) k) (Racing.cars_table w) = None) /\
  (forall (k : Z) (w : Racing.world) (e : exn),
     fst (Racing.get_car_by_id k w) = Err e -> e = ValueError).
Proof.
  split; [|split; [|split]].
  - intros now k st. destruct (Boxing.cache_hit now k st) as [b|] eqn:Hc.
    + unfold Boxing.get_boxer_by_id. rewrite Hc. simpl.
      split; [done|]. intros [[=] _].
    + rewrite (BoxingFacts.get_boxer_by_id_miss now k st Hc).
      destruct (find _ _); simpl; split; try done. intros [_ [=]].
  - intros now k st e. unfold Boxing.get_boxer_by_id.
    destruct (Boxing.cache_hit now k st); simpl; [done|].
    destruct (find _ _); simpl; congruence.
  - intros k w. unfold Racing.get_car_by_id.
    destruct (find _ _); simpl; split; done.
  - intros k w e. unfold Racing.get_car_by_id.
    destruct (find _ _); simpl; congruence.
Qed.

Lemma not_found_iff_store_absent_witness :
  Boxing.cache_hit 0 2 Fixtures.boxing_cached = None /\
  fst (Boxing.get_boxer_by_id 0 2 Fixtures.boxing_cached) = Err ValueError /\
  fst (Racing.get_car_by_id 3 Fixtures.track_one) = Err ValueError.
Proof.
  destruct not_found_iff_store_absent as [Hb [_ [Hc _]]].
  split; [reflexivity|split].
  - apply Hb. split; reflexivity.
  - apply Hc. reflexivity.
Defined.

(** Helpers for deletion and for the roster. *)

Lemma boxing_cache_hit_some (now : instant) (k : Z) (st : Boxing.state) (b : Boxing.Boxers) :
  Boxing.cache_hit now k st = Some b -> exists e, Boxing._boxer_cache st !! k = Some (b, e).
Proof.
  unfold Boxing.cache_hit. destruct (Boxing._boxer_cache st !! k) as [[b' e]|]; [|done].
  destruct (Z.ltb now e); [|done]. intros [= ->]. eauto.
Qed.

Lemma boxing_get_absent (now : instant) (k : Z) (st : Boxing.state) :
  Boxing.cache_hit now k st = None ->
  find (fun b => Z.eqb (Boxing.id b) k) (Boxing.boxers_table st) = None ->
  fst (Boxing.get_boxer_by_id now k st) = Err ValueError.
Proof.
  intros Hc Hf. rewrite (BoxingFacts.get_boxer_by_id_miss now k st Hc), Hf. reflexivity.
Qed.

(** The object [get_boxer_by_id] returns carries the requested key. *)
Lemma boxing_get_id (now : instant) (k : Z) (st st1 : Boxing.state) (b : Boxing.Boxers) :
  Boxing.cache_wf st -> Boxing.get_boxer_by_id now k st = (Ok b, st1) -> Boxing.id b = k.
Proof.
  intros Hwf Hg. destruct (Boxing.cache_hit now k st) as [b'|] eqn:Hc.
  - unfold Boxing.get_boxer_by_id in Hg. rewrite Hc in Hg. injection Hg as <- _.
    destruct (boxing_cache_hit_some now k st b' Hc) as [e He]. exact (Hwf k b' e He).
  - rewrite (BoxingFacts.get_boxer_by_id_miss now k st Hc) in Hg.
    destruct (find _ _) as [b'|] eqn:Hf; [|done]. injection Hg as <- _.
    exact (BoxingFacts.find_id_some _ _ _ Hf).
Qed.

Lemma boxing_get_table (now : instant) (k : Z) (st st1 : Boxing.state) r :
  Boxing.get_boxer_by_id now k st = (r, st1) ->
  Boxing.boxers_table st1 = Boxing.boxers_table st.
Proof.
  unfold Boxing.get_boxer_by_id. destruct (Boxing.cache_hit now k st).
  - now intros [= _ <-].
  - unfold Boxing.query_get. simpl. destruct (find _ _); now intros [= _ <-].
Qed.

Lemma get_car_by_id_frame (k : Z) (w w1 : Racing.world) r :
  Racing.get_car_by_id k w = (r, w1) ->
  Racing.track w1 = Racing.track w /\ Racing._car_cache w1 = Racing._car_cache w /\
  Racing._ttl w1 = Racing._ttl w /\ Racing.cars_table w1 = Racing.cars_table w.
Proof. unfold Racing.get_car_by_id. destruct (find _ _); now intros [= _ <-]. Qed.

Lemma log_cars_frame (ids : list Z) (w w' : Racing.world) r :
  Racing.log_cars ids w = (r, w') ->
  Racing.track w' = Racing.track w /\ Racing._car_cache w' = Racing._car_cache w /\
  Racing.cars_table w' = Racing.cars_table w.
Proof.
  revert w. induction ids as [|c ids IH]; intros w H; simpl in H.
  - now injection H as _ <-.
  - destruct (Racing.get_car_by_id c w) as [[x|e] w1] eqn:H1;
      destruct (get_car_by_id_frame _ _ _ _ H1) as (T1 & C1 & _ & D1).
    + destruct (Racing.get_car_by_id c w1) as [[y|e] w2] eqn:H2;
        destruct (get_car_by_id_frame _ _ _ _ H2) as (T2 & C2 & _ & D2).
      * destruct (IH w2 H) as (T & C & D). repeat split; congruence.
      * injection H as _ <-. repeat split; congruence.
    + injection H as _ <-. repeat split; congruence.
Qed.

Definition in_table (w : Racing.world) (c : Z) : Prop :=
  exists x, find (fun x => Z.eqb (Racing.id x) c) (Racing.cars_table w) = Some x.

Lemma log_cars_ok (ids : list Z) (w : Racing.world) :
  Forall (in_table w) ids -> fst (Racing.log_cars ids w) = Ok tt.
Proof.
  revert w. induction ids as [|c ids IH]; intros w H; simpl; [done|].
  inversion H as [|? ? [x Hx] Hrest]; subst.
  unfold Racing.get_car_by_id. simpl. rewrite Hx. simpl. rewrite Hx.
  apply IH. exact Hrest.
Qed.

(** A car is live on the track at [now]: its [_ttl] entry has not passed
    and it has a cached object. *)
Definition live_at (now : instant) (w : Racing.world) (j : Z) : Prop :=
  exists e c, Racing._ttl w !! j = Some e /\ now <= e /\ Racing._car_cache w !! j = Some c.

Lemma racing_delete_frame (k : Z) (w w' : Racing.world) r :
  Racing.delete k w = (r, w') ->
  Racing.track w' = Racing.track w /\ Racing._car_cache w' = Racing._car_cache w /\
  Racing._ttl w' = Racing._ttl w.
Proof.
  unfold Racing.delete. destruct (Racing.get_car_by_id k w) as [[car|e] w1] eqn:H;
    destruct (get_car_by_id_frame _ _ _ _ H) as (T & C & D & _).
  - intros [= _ <-]. unfold Racing.set_table. simpl. repeat split; congruence.
  - intros [= _ <-]. repeat split; congruence.
Qed.

Lemma racing_delete_lookup (k : Z) (w w' : Racing.world) :
  Racing.delete k w = (Ok tt, w') -> fst (Racing.get_car_by_id k w') = Err ValueError.
Proof.
  intros Hd. unfold Racing.delete, Racing.get_car_by_id in Hd.
  destruct (find _ _) as [car|] eqn:Hf; [|done].
  injection Hd as <-. pose proof (RacingFacts.find_car_id_some _ _ _ Hf) as Hid.
  unfold Racing.get_car_by_id. simpl. rewrite Hid, RacingFacts.find_car_id_filter.
  reflexivity.
Qed.

(** With every car of [ids] live, the loop of [get_cars] serves each from
    the cache and leaves the world as it was. *)
Lemma get_cars_loop_live (now : instant) (ids : list Z) (w : Racing.world) :
  Forall (live_at now w) ids ->
  exists cars, Racing.get_cars_loop now ids w = (Ok cars, w) /\
    Forall2 (fun j c => Racing._car_cache w !! j = Some c) ids cars.
Proof.
  induction ids as [|j ids IH]; intros H; simpl.
  - exists []. split; [reflexivity|constructor].
  - inversion H as [|? ? (e & c & Ht & Hle & Hc) Hrest]; subst.
    rewrite (RacingFacts.get_cars_step_live j w e c now Ht Hc Hle).
    destruct (IH Hrest) as (cars & -> & F). exists (c :: cars). split; [reflexivity|].
    constructor; assumption.
Qed.

Lemma forall2_cached_in (w : Racing.world) (ids : list Z) (cars : list Racing.Cars) (k : Z) (car : Racing.Cars) :
  Forall2 (fun j c => Racing._car_cache w !! j = Some c) ids cars ->
  In k ids -> Racing._car_cache w !! k = Some car -> In car cars.
Proof.
  induction 1 as [|j c ids cars Hjc F IH]; simpl; [done|].
  intros [<-|Hin] Hk.
  - left. congruence.
  - right. now apply IH.
Qed.

(** The loop of [get_cars] stops at the first car whose iteration raises,
    past cars that are live. *)
Lemma get_cars_loop_stops (now : instant) (pre post : list Z) (k : Z) (w w1 : Racing.world)
  (e : exn) :
  Forall (live_at now w) pre -> Racing.get_cars_step now k w = (Err e, w1) ->
  fst (Racing.get_cars_loop now (pre ++ k :: post) w) = Err e.
Proof.
  induction pre as [|j pre IH]; intros H Hs; simpl.
  - now rewrite Hs.
  - inversion H as [|? ? (e' & c & Ht & Hle & Hc) Hrest]; subst.
    rewrite (RacingFacts.get_cars_step_live j w e' c now Ht Hc Hle).
    specialize (IH Hrest Hs). destruct (Racing.get_cars_loop now (pre ++ k :: post) w)
      as [[cars|e''] w2]; simpl in *; congruence.
Qed.

(** C2, counterexample. Car 1 sits on the track, cached until instant 60.
    [Cars.delete 1] removes its row ([Cars.get_car_by_id 1] now raises), but
    the track's cache is not touched: at instant 10 [get_cars] still serves
    the deleted car. *)
Lemma deleted_car_served_from_track_cache :
  Racing.cars_table (snd (Racing.delete 1 Fixtures.track_one)) = [] /\
  fst (Racing.get_car_by_id 1 (snd (Racing.delete 1 Fixtures.track_one))) = Err ValueError /\
  fst (Racing.get_cars 10 (snd (Racing.delete 1 Fixtures.track_one))) = Ok [Fixtures.ferrari].
Proof. split; [reflexivity|split; reflexivity]. Qed.

(** C2, as amended. [Boxers.delete k] drops [k] from the boxing cache along
    with the row, so any later [get_boxer_by_id k] raises [ValueError]; when
    [Boxers.delete k] itself raises, nothing was cached live and nothing is
    in the table, and later lookups raise too. [Cars.delete k] removes the
    row, so a later [Cars.get_car_by_id k] raises [ValueError]; it does not
    touch a track's cache: while the cars of the track are live, [get_cars]
    keeps serving the deleted car [k] from the cache (with no query), and
    once its [_ttl] entry has lapsed, the iteration of [get_cars] that
    reaches [k] raises [ValueError]. *)
Theorem delete_then_lookup_not_found :
  (forall (now now' : instant) (k : Z) (st st' : Boxing.state),
     Boxing.cache_wf st -> Boxing.delete now k st = (Ok tt, st') ->
     fst (Boxing.get_boxer_by_id now' k st') = Err ValueError) /\
  (forall (now now' : instant) (k : Z) (st st' : Boxing.state) (e : exn),
     Boxing.delete now k st = (Err e, st') -> now <= now' ->
     fst (Boxing.get_boxer_by_id now' k st') = Err ValueError) /\
  (forall (k : Z) (w w' : Racing.world),
     Racing.delete k w = (Ok tt, w') ->
     fst (Racing.get_car_by_id k w') = Err ValueError) /\
  (forall (now : instant) (k : Z) (w w' : Racing.world) (r : result unit) (car : Racing.Cars),
     Racing.delete k w = (r, w') ->
     In k (Racing.track w) -> Racing._car_cache w !! k = Some car ->
     Forall (live_at now w) (Racing.track w) ->
     exists cars, Racing.get_cars now w' = (Ok cars, w') /\ In car cars) /\
  (forall (now : instant) (k : Z) (w w' : Racing.world) (pre post : list Z) (e : instant),
     Racing.delete k w = (Ok tt, w') ->
     Racing.track w = pre ++ k :: post -> Forall (live_at now w) pre ->
     Racing._ttl w !! k = Some e -> e < now ->
     fst (Racing.get_cars now w') = Err ValueError).
Proof.
  split; [|split; [|split; [|split]]].
  - intros now now' k st st' Hwf Hd. unfold Boxing.delete in Hd.
    destruct (Boxing.get_boxer_by_id now k st) as [[b|e] st1] eqn:Hg; [|done].
    injection Hd as <-.
    pose proof (boxing_get_id now k st st1 b Hwf Hg) as Hid.
    apply boxing_get_absent.
    + unfold Boxing.cache_hit, Boxing.session_delete, Boxing.set_table, Boxing.set_cache.
      simpl. now rewrite lookup_delete_eq.
    + unfold Boxing.session_delete, Boxing.set_table. simpl. rewrite Hid.
      apply BoxingFacts.find_id_filter.
  - intros now now' k st st' e Hd Hle. unfold Boxing.delete in Hd.
    destruct (Boxing.get_boxer_by_id now k st) as [[b|e'] st1] eqn:Hg; [done|].
    injection Hd as _ <-.
    destruct (Boxing.cache_hit now k st) as [b|] eqn:Hc.
    + unfold Boxing.get_boxer_by_id in Hg. now rewrite Hc in Hg.
    + rewrite (BoxingFacts.get_boxer_by_id_miss now k st Hc) in Hg.
      destruct (find _ _) eqn:Hf; [done|]. injection Hg as _ <-.
      apply boxing_get_absent; [|exact Hf].
      apply (BoxingFacts.cache_hit_later now now' k); [|exact Hle].
      exact Hc.
  - exact racing_delete_lookup.
  - intros now k w w' r car Hd Hin Hc Hlive.
    destruct (racing_delete_frame k w w' r Hd) as (T & C & D).
    assert (Forall (live_at now w') (Racing.track w')) as Hlive'.
    { rewrite T. eapply Forall_impl; [exact Hlive|].
      intros j (e & c & Ht & Hle & Hcj). exists e, c. rewrite C, D. auto. }
    destruct (get_cars_loop_live now (Racing.track w') w' Hlive') as (cars & Hl & F).
    exists cars. split.
    + assert (Racing.track w' <> []) as Hne by (rewrite T; intros E; rewrite E in Hin; done).
      unfold Racing.get_cars. destruct (Racing.track w'); [done|exact Hl].
    + apply (forall2_cached_in w' (Racing.track w') cars k car F); [congruence|congruence].
  - intros now k w w' pre post e Hd Htr Hpre Ht Hlt.
    destruct (racing_delete_frame k w w' (Ok tt) Hd) as (T & C & D).
    assert (Racing.expired now k w' = true) as Hx.
    { destruct (Racing.expired now k w') eqn:Hx'; [reflexivity|].
      apply RacingFacts.expired_false in Hx' as (e' & He' & Hle). rewrite D in He'.
      pose proof (eq_trans (eq_sym Ht) He') as Hee. injection Hee as <-. lia. }
    assert (exists w1, Racing.get_cars_step now k w' = (Err ValueError, w1)) as [w1 Hs].
    { unfold Racing.get_cars_step. rewrite Hx.
      pose proof (racing_delete_lookup k w w' Hd) as Hg.
      destruct (Racing.get_car_by_id k w') as [[c|e'] w1]; simpl in Hg; [done|].
      injection Hg as ->. eauto. }
    assert (Forall (live_at now w') pre) as Hpre'.
    { eapply Forall_impl; [exact Hpre|].
      intros j (e' & c & Htj & Hle & Hcj). exists e', c. rewrite C, D. auto. }
    unfold Racing.get_cars. rewrite T, Htr.
    destruct (pre ++ k :: post) as [|x l] eqn:E; [by destruct pre|]. rewrite <- E.
    exact (get_cars_loop_stops now pre post k w' w1 ValueError Hpre' Hs).
Qed.

Lemma boxing_cached_wf : Boxing.cache_wf Fixtures.boxing_cached.
Proof.
  intros k b e H. simpl in H. destruct (decide (k = 1)) as [->|Hne].
  - rewrite lookup_singleton_eq in H. injection H as <- _. reflexivity.
  - rewrite lookup_singleton_ne in H; [done|congruence].
Qed.

Lemma delete_then_lookup_not_found_witness :
  fst (Boxing.get_boxer_by_id 100 1 (snd (Boxing.delete 0 1 Fixtures.boxing_cached)))
    = Err ValueError /\
  fst (Boxing.get_boxer_by_id 100 2 (snd (Boxing.delete 0 2 Fixtures.boxing_cached)))
    = Err ValueError /\
  fst (Racing.get_car_by_id 1 (snd (Racing.delete 1 Fixtures.track_one))) = Err ValueError /\
  (exists cars, Racing.get_cars 30 (snd (Racing.delete 12 Fixtures.track_7_12))
                  = (Ok cars, snd (Racing.delete 12 Fixtures.track_7_12)) /\
                In Fixtures.car12 cars) /\
  fst (Racing.get_cars 61 (snd (Racing.delete 1 Fixtures.track_one))) = Err ValueError.
Proof.
  destruct delete_then_lookup_not_found as [H1 [H2 [H3 [H4 H5]]]].
  split; [|split; [|split; [|split]]].
  - apply (H1 0 100 1 Fixtures.boxing_cached); [exact boxing_cached_wf|reflexivity].
  - apply (H2 0 100 2 Fixtures.boxing_cached _ ValueError); [reflexivity|lia].
  - apply (H3 1 Fixtures.track_one). reflexivity.
  - apply (H4 30 12 Fixtures.track_7_12 _ (fst (Racing.delete 12 Fixtures.track_7_12))).
    + reflexivity.
    + simpl. right. left. reflexivity.
    + reflexivity.
    + simpl. constructor; [|constructor; [|constructor]].
      * exists 60, Fixtures.car7. split; [reflexivity|split; [lia|reflexivity]].
      * exists 60, Fixtures.car12. split; [reflexivity|split; [lia|reflexivity]].
  - apply (H5 61 1 Fixtures.track_one _ [] [] 60).
    + reflexivity.
    + reflexivity.
    + constructor.
    + reflexivity.
    + lia.
Defined.

(* ===================================================================== *)
(** ** Rosters: the track and the ring                                      *)
(* ===================================================================== *)

(** C5 (roster capacity). A track or ring holding two (or more)
    participants refuses a further one with [ValueError] and is left exactly
    as it was (for the track: the whole state, query log included, since the
    length check comes first). With fewer than two, a car with a row is
    appended to the track and cached (the call returns normally when the cars
    already on the track still have their rows, which the log line of
    [enter_track] fetches again), and a [Boxer] is appended to the ring. *)
Theorem roster_capacity :
  (forall (now : instant) (k : Z) (w : Racing.world),
     (2 <= length (Racing.track w))%nat ->
     Racing.enter_track now k w = (Err ValueError, w)) /\
  (forall (b : Ring.Boxer) (ring : list Ring.Boxer),
     (2 <= length ring)%nat ->
     Ring.enter_ring (Ring.PyBoxer b) ring = (Err ValueError, ring)) /\
  (forall (now : instant) (k : Z) (w : Racing.world) (car : Racing.Cars),
     (length (Racing.track w) < 2)%nat ->
     find (fun c => Z.eqb (Racing.id c) k) (Racing.cars_table w) = Some car ->
     exists r w',
       Racing.enter_track now k w = (r, w') /\
       Racing.track w' = Racing.track w ++ [k] /\
       Racing._car_cache w' !! k = Some car /\
       (Forall (in_table w) (Racing.track w) -> r = Ok tt)) /\
  (forall (b : Ring.Boxer) (ring : list Ring.Boxer),
     (length ring < 2)%nat ->
     Ring.enter_ring (Ring.PyBoxer b) ring = (Ok tt, ring ++ [b])).
Proof.
  split; [|split; [|split]].
  - intros now k w H. unfold Racing.enter_track.
    apply Nat.leb_le in H. now rewrite H.
  - intros b ring H. unfold Ring.enter_ring. apply Nat.leb_le in H. now rewrite H.
  - intros now k w car H Hf. unfold Racing.enter_track.
    apply Nat.leb_gt in H. rewrite H. unfold Racing.get_car_by_id. rewrite Hf.
    simpl.
    match goal with |- context [Racing.log_cars ?ids ?w3] =>
      destruct (Racing.log_cars ids w3) as [r w'] eqn:Hl;
      pose proof (log_cars_ok ids w3) as Hok end.
    destruct (log_cars_frame _ _ _ _ Hl) as (T & C & D).
    exists r, w'. split; [reflexivity|]. rewrite T, C. simpl.
    split; [reflexivity|]. split; [apply lookup_insert_eq|].
    intros Hall. rewrite Hl in Hok. apply Hok. apply Forall_app. split.
    + exact Hall.
    + constructor; [|constructor]. exists car. exact Hf.
  - intros b ring H. unfold Ring.enter_ring. apply Nat.leb_gt in H. now rewrite H.
Qed.

Lemma roster_capacity_witness :
  Racing.enter_track 5 3 Fixtures.track_7_12 = (Err ValueError, Fixtures.track_7_12) /\
  Ring.enter_ring (Ring.PyBoxer Fixtures.al) [Fixtures.al; Fixtures.bob]
    = (Err ValueError, [Fixtures.al; Fixtures.bob]) /\
  (exists r w', Racing.enter_track 0 2 Fixtures.track_one_lambo_row = (r, w') /\
     Racing.track w' = [1; 2] /\ Racing._car_cache w' !! 2 = Some Fixtures.lambo /\
     (Forall (in_table Fixtures.track_one_lambo_row) [1] -> r = Ok tt)) /\
  Ring.enter_ring (Ring.PyBoxer Fixtures.bob) [Fixtures.al] = (Ok tt, [Fixtures.al; Fixtures.bob]).
Proof.
  destruct roster_capacity as [H1 [H2 [H3 H4]]].
  split; [|split; [|split]].
  - apply H1. simpl. lia.
  - apply H2. simpl. lia.
  - apply (H3 0 2 Fixtures.track_one_lambo_row Fixtures.lambo); [simpl; lia|reflexivity].
  - apply H4. simpl. lia.
Defined.

Lemma race_normalized_delta_pos (a b : R) : (0 < Racing.normalized_delta a b)%R.
Proof.
  unfold Racing.normalized_delta. apply Rdiv_lt_0_compat; [lra|].
  pose proof (exp_pos (- Rabs (a - b) / 100)). lra.
Qed.

Lemma update_stats_ok (c : Racing.Cars) (res : string) (w : Racing.world) :
  (res = "win" \/ res = "loss")%string -> Racing.wins c <= Racing.races c ->
  exists w', Racing.update_stats c res w = (Ok tt, w') /\ Racing.track w' = Racing.track w.
Proof.
  intros Hres Hle. unfold Racing.update_stats.
  destruct Hres as [-> | ->]; simpl.
  - destruct (Z.ltb_spec (Racing.races c + 1) (Racing.wins c + 1)); [lia|].
    eexists; split; reflexivity.
  - destruct (Z.ltb_spec (Racing.races c + 1) (Racing.wins c)); [lia|].
    eexists; split; reflexivity.
Qed.

Lemma update_stats_track (c : Racing.Cars) (res : string) (w w' : Racing.world) r :
  Racing.update_stats c res w = (r, w') -> Racing.track w' = Racing.track w.
Proof.
  unfold Racing.update_stats.
  destruct (negb _); [now intros [= _ <-]|].
  destruct (Z.ltb _ _); now intros [= _ <-].
Qed.

(** C6 (the race scenario). With scores 500 for the first car on the track
    and 400 for the second and the draw 0.4: the win probability
    [0.5 + normalized_delta/2] exceeds 0.5 and the draw is below it, so the
    first car wins; when both stat updates go through (no car has more
    wins than races), [race] returns "make model" of the first car and
    leaves the track empty. *)
Theorem race_scenario_first_wins :
  (0.5 < Racing.win_probability 500 400)%R /\
  (0.4 < Racing.win_probability 500 400)%R /\
  (forall (score : Racing.Cars -> R) (now : instant) (w w1 : Racing.world)
          (car_1 car_2 : Racing.Cars),
     (2 <= length (Racing.track w))%nat ->
     Racing.get_cars now w = (Ok [car_1; car_2], w1) ->
     score car_1 = 500%R -> score car_2 = 400%R ->
     Racing.wins car_1 <= Racing.races car_1 ->
     Racing.wins car_2 <= Racing.races car_2 ->
     exists w',
       Racing.race_with score now 0.4%R w =
         (Ok (String.append (Racing.make car_1) (String.append " " (Racing.model car_1))), w') /\
       Racing.track w' = []).
Proof.
  assert (Hp : (0.5 < Racing.win_probability 500 400)%R).
  { unfold Racing.win_probability. pose proof (race_normalized_delta_pos 500 400). lra. }
  split; [exact Hp|]. split; [lra|].
  intros score now w w1 car_1 car_2 Hlen Hget Hs1 Hs2 Hw1 Hw2.
  unfold Racing.race_with.
  assert (Hlt : (length (Racing.track w) <? 2)%nat = false) by (apply Nat.ltb_ge; lia).
  rewrite Hlt, Hget. unfold Racing.race_pick. rewrite Hs1, Hs2.
  destruct (Rlt_dec 400 500) as [_|Hn]; [|lra].
  destruct (Rlt_dec 0.4 (Racing.win_probability 500 400)) as [_|Hn]; [|lra].
  destruct (update_stats_ok car_1 "win" w1) as [w2 [-> T2]]; [now left|exact Hw1|].
  destruct (update_stats_ok car_2 "loss" w2) as [w3 [-> T3]]; [now right|exact Hw2|].
  eexists. split; [reflexivity|]. apply RacingFacts.track_clear_track.
Qed.

Lemma race_scenario_first_wins_witness :
  exists w',
    Racing.race_with Fixtures.scenario_score 0 0.4%R Fixtures.track_7_12 =
      (Ok "Ferrari F8 Tributo"%string, w') /\ Racing.track w' = [].
Proof.
  apply (proj2 (proj2 race_scenario_first_wins) Fixtures.scenario_score 0
           Fixtures.track_7_12 Fixtures.track_7_12 Fixtures.car7 Fixtures.car12);
    simpl; try reflexivity; lia.
Defined.

(** C7 (simulate clears the roster). A [race] or [fight] that returns
    normally leaves the roster empty; with fewer than two participants both
    raise [ValueError] and leave everything as it was. *)
Theorem simulate_clears_roster :
  (forall (score : Racing.Cars -> R) (now : instant) (r : R) (w w' : Racing.world) (s : string),
     Racing.race_with score now r w = (Ok s, w') -> Racing.track w' = []) /\
  (forall (score : Racing.Cars -> R) (now : instant) (r : R) (w : Racing.world),
     (length (Racing.track w) < 2)%nat ->
     Racing.race_with score now r w = (Err ValueError, w)) /\
  (forall (DB : Type) (upd : Z -> string -> DB -> result unit * DB) (r : R)
          (ring ring' : list Ring.Boxer) (db db' : DB) (s : string),
     Ring.fight upd r ring db = (Ok s, ring', db') -> ring' = []) /\
  (forall (DB : Type) (upd : Z -> string -> DB -> result unit * DB) (r : R)
          (ring : list Ring.Boxer) (db : DB),
     (length ring < 2)%nat -> Ring.fight upd r ring db = (Err ValueError, ring, db)).
Proof.
  split; [|split; [|split]].
  - intros score now r w w' s H. unfold Racing.race_with in H.
    destruct (_ <? _)%nat; [done|].
    destruct (Racing.get_cars now w) as [[[|c1 [|c2 [|c3 cs]]]|e] w1]; try done.
    destruct (Racing.race_pick _ _ _ _ _) as [winner loser].
    destruct (Racing.update_stats winner "win" w1) as [[u|e] w2]; [|done].
    destruct (Racing.update_stats loser "loss" w2) as [[u'|e] w3]; [|done].
    injection H as _ <-. apply RacingFacts.track_clear_track.
  - intros score now r w H. unfold Racing.race_with.
    apply Nat.ltb_lt in H. now rewrite H.
  - intros DB upd r ring ring' db db' s H. unfold Ring.fight in H.
    destruct (_ <? _)%nat; [done|].
    destruct (Ring.get_boxers ring) as [|b1 [|b2 [|b3 bs]]]; try done.
    destruct (Ring.pick b1 b2 r) as [winner loser].
    destruct (upd (Ring.id winner) "win" db) as [[u|e] db1]; [|done].
    destruct (upd (Ring.id loser) "loss" db1) as [[u'|e] db2]; [|done].
    injection H as _ <- _. unfold Ring.clear_ring. now destruct ring.
  - intros DB upd r ring db H. unfold Ring.fight.
    apply Nat.ltb_lt in H. now rewrite H.
Qed.

Lemma simulate_clears_roster_witness :
  Racing.track (snd (Racing.race_with Fixtures.scenario_score 0 0.4%R Fixtures.track_7_12)) = [] /\
  Racing.race_with Fixtures.scenario_score 0 0.4%R Fixtures.track_one
    = (Err ValueError, Fixtures.track_one) /\
  Ring.fight Fixtures.update_boxer_stats_list (1/2)%R [Fixtures.al] [(1, (0, 0))]
    = (Err ValueError, [Fixtures.al], [(1, (0, 0))]).
Proof.
  destruct simulate_clears_roster as [H1 [H2 [H3 H4]]].
  split; [|split].
  - destruct race_scenario_first_wins_witness as [w' [Hr _]].
    rewrite Hr. simpl.
    apply (H1 Fixtures.scenario_score 0 0.4%R Fixtures.track_7_12 w' "Ferrari F8 Tributo"%string).
    exact Hr.
  - apply H2. simpl. lia.
  - apply H4. simpl. lia.
Defined.

(** C8 (clearing the roster). [clear_track] only empties [track]: the
    track's car cache, its expiry map, [ttl_seconds], the table and the query
    log are all left as they were; on an empty track it changes nothing.
    [clear_ring] empties the ring, and leaves an empty ring as it is. *)
Theorem clear_keeps_cache :
  (forall w : Racing.world,
     Racing.clear_track w = Racing.set_track [] w /\
     Racing.track (Racing.clear_track w) = [] /\
     Racing._car_cache (Racing.clear_track w) = Racing._car_cache w /\
     Racing._ttl (Racing.clear_track w) = Racing._ttl w) /\
  (forall w : Racing.world, Racing.track w = [] -> Racing.clear_track w = w) /\
  (forall ring : list Ring.Boxer, Ring.clear_ring ring = []) /\
  (forall ring : list Ring.Boxer, ring = [] -> Ring.clear_ring ring = ring).
Proof.
  split; [|split; [|split]].
  - intros [t c ttl secs tbl log]. unfold Racing.clear_track, Racing.set_track.
    destruct t; simpl; repeat split.
  - intros [t c ttl secs tbl log] H. simpl in H. subst t. reflexivity.
  - intros [|b ring]; reflexivity.
  - intros ring ->. reflexivity.
Qed.

Lemma clear_keeps_cache_witness :
  Racing.clear_track Fixtures.track_empty = Fixtures.track_empty /\
  Ring.clear_ring [] = [].
Proof.
  destruct clear_keeps_cache as [_ [H2 [_ H4]]].
  split; [apply H2; reflexivity|apply H4; reflexivity].
Defined.

(** C9 (the fight rule of the ring). The first-entered boxer wins exactly
    when the draw is below [1 / (1 + e^(-|skill_1 - skill_2|))]; the
    threshold is symmetric in the two skills, so which boxer is the
    stronger plays no part. Since the threshold exceeds
    [1 - e^(-|skill_1 - skill_2|)], every draw below that bound makes the
    first-entered boxer win, whatever the skills. A fight that returns
    normally returns the name of the boxer so chosen. *)
Theorem fight_first_entered_rule :
  forall (b1 b2 : Ring.Boxer) (r : R),
    let s1 := Ring.get_fighting_skill b1 in
    let s2 := Ring.get_fighting_skill b2 in
    ((r < 1 / (1 + exp (- Rabs (s1 - s2))))%R -> Ring.pick b1 b2 r = (b1, b2)) /\
    (~ (r < 1 / (1 + exp (- Rabs (s1 - s2))))%R -> Ring.pick b1 b2 r = (b2, b1)) /\
    Ring.normalized_delta s1 s2 = Ring.normalized_delta s2 s1 /\
    ((r < 1 - exp (- Rabs (s1 - s2)))%R -> Ring.pick b1 b2 r = (b1, b2)) /\
    (forall (DB : Type) (upd : Z -> string -> DB -> result unit * DB)
            (db db' : DB) (s : string) (ring' : list Ring.Boxer),
       Ring.fight upd r [b1; b2] db = (Ok s, ring', db') ->
       s = Ring.name (fst (Ring.pick b1 b2 r))).
Proof.
  intros b1 b2 r s1 s2.
  assert (Hpick : forall r', (r' < 1 / (1 + exp (- Rabs (s1 - s2))))%R ->
                             Ring.pick b1 b2 r' = (b1, b2)).
  { intros r' H. unfold Ring.pick, Ring.normalized_delta.
    destruct (Rlt_dec _ _); [reflexivity|contradiction]. }
  split; [exact (Hpick r)|split; [|split; [|split]]].
  - intros H. unfold Ring.pick, Ring.normalized_delta.
    destruct (Rlt_dec _ _); [contradiction|reflexivity].
  - unfold Ring.normalized_delta. now rewrite Rabs_minus_sym.
  - intros H. apply Hpick.
    set (x := exp (- Rabs (s1 - s2))) in *.
    assert (Hx : (0 < x)%R) by apply exp_pos.
    assert ((1 - x) < 1 / (1 + x))%R.
    { apply (Rmult_lt_reg_r (1 + x)); [lra|].
      unfold Rdiv. rewrite Rmult_assoc, Rinv_l; [nra|lra]. }
    lra.
  - intros DB upd db db' s ring' H. unfold Ring.fight in H. simpl in H.
    destruct (Ring.pick b1 b2 r) as [winner loser]. simpl.
    destruct (upd (Ring.id winner) "win" db) as [[u|e] db1]; [|done].
    destruct (upd (Ring.id loser) "loss" db1) as [[u'|e] db2]; [|done].
    now injection H as <- _ _.
Qed.

Lemma skill_al : Ring.get_fighting_skill Fixtures.al = 267%R.
Proof. unfold Ring.get_fighting_skill. simpl. lra. Qed.

Lemma skill_bob : Ring.get_fighting_skill Fixtures.bob = 608%R.
Proof. unfold Ring.get_fighting_skill. simpl. lra. Qed.

Lemma fight_first_entered_rule_witness :
  (Ring.get_fighting_skill Fixtures.al < Ring.get_fighting_skill Fixtures.bob)%R /\
  Ring.pick Fixtures.al Fixtures.bob (1 / 2) = (Fixtures.al, Fixtures.bob).
Proof.
  rewrite skill_al, skill_bob. split; [lra|].
  destruct (fight_first_entered_rule Fixtures.al Fixtures.bob (1 / 2))
    as [_ [_ [_ [H _]]]].
  apply H. rewrite skill_al, skill_bob.
  replace (Rabs (267 - 608)) with 341%R by (rewrite Rabs_left; lra).
  rewrite exp_Ropp.
  pose proof (exp_ineq1 341 ltac:(lra)) as He.
  assert (/ exp 341 < / 342)%R by (apply Rinv_lt_contravar; nra).
  lra.
Defined.

(** C10 (lookup by name). When no row of the table carries the stripped
    name, [get_boxer_by_name] returns [None] normally: the [ValueError] it
    raises is swallowed by its own [except] clause. *)
Theorem get_boxer_by_name_missing_returns_none :
  forall (nm : string) (st : Boxing.state),
    (forall b, In b (Boxing.boxers_table st) -> Boxing.name b <> py_strip nm) ->
    Boxing.get_boxer_by_name nm st = Ok None.
Proof.
  intros nm st H. unfold Boxing.get_boxer_by_name, Boxing.query_by_name.
  now rewrite (BoxingFacts.find_id_none _ _ H).
Qed.

Lemma get_boxer_by_name_missing_returns_none_witness :
  Boxing.get_boxer_by_name " Zed " Fixtures.boxing_cached = Ok None.
Proof.
  apply get_boxer_by_name_missing_returns_none.
  intros b [<- | []]. vm_compute. intros H. discriminate H.
Defined.

(* ===================================================================== *)
(** ** Further properties of the models                                    *)
(* ===================================================================== *)

Module SortFacts.
Import PySort.

Section Facts.
Context {A : Type}.
Variable key : A -> Q.

Definition desc (a b : A) : Prop := (key b <= key a)%Q.

Lemma insert_desc_perm (x : A) (l : list A) : Permutation (insert_desc key x l) (x :: l).
Proof.
  induction l as [|y l IH]; simpl; [done|].
  destruct (Qle_bool (key x) (key y)); [|done].
  rewrite IH. apply perm_swap.
Qed.

Lemma sort_desc_perm_acc (l acc : list A) :
  Permutation (fold_left (fun acc x => insert_desc key x acc) l acc) (l ++ acc).
Proof.
  revert acc. induction l as [|x l IH]; intros acc; simpl; [done|].
  rewrite IH, insert_desc_perm. symmetry. apply Permutation_middle.
Qed.

Lemma sort_desc_perm (l : list A) : Permutation (sort_desc key l) l.
Proof. unfold sort_desc. rewrite sort_desc_perm_acc. now rewrite app_nil_r. Qed.

Lemma insert_desc_hd (y x : A) (l : list A) :
  HdRel desc y l -> desc y x -> HdRel desc y (insert_desc key x l).
Proof.
  intros Hl Hx. destruct l as [|z l]; simpl; [constructor; exact Hx|].
  destruct (Qle_bool (key x) (key z)); constructor; [now inversion Hl|exact Hx].
Qed.

Lemma insert_desc_sorted (x : A) (l : list A) :
  Sorted desc l -> Sorted desc (insert_desc key x l).
Proof.
  induction l as [|y l IH]; intros Hs; simpl; [repeat constructor|].
  destruct (Qle_bool (key x) (key y)) eqn:E.
  - apply Qle_bool_iff in E. inversion Hs as [|? ? Hs' Hhd]; subst.
    constructor; [now apply IH|]. apply insert_desc_hd; [exact Hhd|exact E].
  - constructor; [exact Hs|]. constructor. unfold desc.
    apply Qlt_le_weak, Qnot_le_lt. intros H. apply Qle_bool_iff in H. congruence.
Qed.

Lemma sort_desc_sorted (l : list A) : Sorted desc (sort_desc key l).
Proof.
  unfold sort_desc.
  assert (forall acc, Sorted desc acc ->
            Sorted desc (fold_left (fun acc x => insert_desc key x acc) l acc)) as H.
  { induction l as [|x l IH]; intros acc Hacc; simpl; [exact Hacc|].
    apply IH. now apply insert_desc_sorted. }
  apply H. constructor.
Qed.

(** Stability: the elements of one key value keep their input order. *)
Definition with_key (q : Q) (l : list A) : list A :=
  List.filter (fun a => Qeq_bool (key a) q) l.

Lemma sorted_desc_below (y : A) (l : list A) :
  Sorted desc (y :: l) -> forall z, In z (y :: l) -> (key z <= key y)%Q.
Proof.
  intros Hs. apply Sorted_StronglySorted in Hs.
  - inversion Hs as [|? ? _ Hall]; subst. intros z [<-|Hz]; [apply Qle_refl|].
    rewrite Forall_forall in Hall. apply Hall. apply list_elem_of_In. exact Hz.
  - intros a b c Hab Hbc. unfold desc in *. eapply Qle_trans; eauto.
Qed.

Lemma with_key_none (q : Q) (l : list A) :
  (forall z, In z l -> ~ (key z == q)%Q) -> with_key q l = [].
Proof.
  induction l as [|z l IH]; intros H; simpl; [done|].
  destruct (Qeq_bool (key z) q) eqn:E.
  - apply Qeq_bool_iff in E. exfalso. apply (H z); [left|]; done.
  - apply IH. intros z' Hz'. apply H. now right.
Qed.

Lemma with_key_cons (q : Q) (a : A) (l : list A) :
  with_key q (a :: l) = if Qeq_bool (key a) q then a :: with_key q l else with_key q l.
Proof. reflexivity. Qed.

Lemma with_key_insert (q : Q) (x : A) (l : list A) :
  Sorted desc l ->
  with_key q (insert_desc key x l) = with_key q l ++ with_key q [x].
Proof.
  induction l as [|y l IH]; intros Hs; [reflexivity|].
  cbn [insert_desc]. destruct (Qle_bool (key x) (key y)) eqn:E.
  - inversion Hs; subst.
    rewrite (with_key_cons q y (insert_desc key x l)), (with_key_cons q y l), IH by done.
    destruct (Qeq_bool (key y) q); reflexivity.
  - assert (Hlt : (key y < key x)%Q).
    { apply Qnot_le_lt. intros H. apply Qle_bool_iff in H. congruence. }
    rewrite (with_key_cons q x (y :: l)), (with_key_cons q x []).
    destruct (Qeq_bool (key x) q) eqn:Ex.
    + apply Qeq_bool_iff in Ex.
      assert (H0 : with_key q (y :: l) = []).
      { apply with_key_none. intros z Hz Hzq.
        pose proof (sorted_desc_below y l Hs z Hz) as Hz'.
        rewrite Hzq, <- Ex in Hz'. exact (Qlt_not_le _ _ Hlt Hz'). }
      rewrite H0. reflexivity.
    + simpl. rewrite app_nil_r. reflexivity.
Qed.

Lemma sort_desc_stable (q : Q) (l : list A) :
  with_key q (sort_desc key l) = with_key q l.
Proof.
  unfold sort_desc.
  assert (forall acc, Sorted desc acc ->
            with_key q (fold_left (fun acc x => insert_desc key x acc) l acc)
            = with_key q acc ++ with_key q l) as H.
  { induction l as [|x l IH]; intros acc Hacc; simpl.
    - now rewrite app_nil_r.
    - rewrite IH by (now apply insert_desc_sorted).
      rewrite with_key_insert by done. rewrite <- app_assoc. simpl.
      destruct (Qeq_bool (key x) q); reflexivity. }
  rewrite H by constructor. reflexivity.
Qed.

End Facts.
End SortFacts.

(* ===================================================================== *)
(** ** Further properties of the models                                    *)
(* ===================================================================== *)

(** [Boxers.get_weight_class] fails exactly below 125 pounds; the
    heaviest class starts at 203 and the lightest spans [125, 133). *)
Theorem get_weight_class_bounds (w : R) :
  (BoxingMore.get_weight_class w = Err ValueError <-> (w < 125)%R) /\
  (BoxingMore.get_weight_class w = Ok "HEAVYWEIGHT" <-> (203 <= w)%R) /\
  (BoxingMore.get_weight_class w = Ok "FEATHERWEIGHT" <-> (125 <= w < 133)%R).
Proof.
  unfold BoxingMore.get_weight_class.
  repeat destruct Rle_dec; repeat split; intros; try discriminate; try lra; reflexivity.
Qed.

(** [Boxers.get_boxer_for_fight] and [Boxers.get_boxer_by_id] behave the
    same on every input: same result, same cache, same queries. *)
Theorem get_boxer_for_fight_is_get_boxer_by_id (now : instant) (k : Z) (st : Boxing.state) :
  BoxingMore.get_boxer_for_fight now k st = Boxing.get_boxer_by_id now k st.
Proof. reflexivity. Qed.

(** [Cars.get_car_class] fails exactly when the horsepower or the weight
    is not positive. *)
Theorem get_car_class_error_iff (hp : Z) (w : R) :
  RacingMore.get_car_class hp w = Err ValueError <-> (hp <= 0)%Z \/ (w <= 0)%R.
Proof.
  unfold RacingMore.get_car_class.
  destruct (Z.leb_spec hp 0) as [H|H].
  - split; [intros _; now left|reflexivity].
  - destruct (Rle_dec w 0) as [Hw|Hw].
    + split; [intros _; now right|reflexivity].
    + split.
      * repeat destruct Rlt_dec; discriminate.
      * intros [Hh|Hh]; [lia|contradiction].
Qed.

Lemma find_app_none {A : Type} (f : A -> bool) (l1 l2 : list A) :
  find f l1 = None -> find f (l1 ++ l2) = find f l2.
Proof. induction l1 as [|x l1 IH]; simpl; [done|]. destruct (f x); [discriminate|exact IH]. Qed.

(** [Boxers.create_boxer] with an invalid argument (a weight under 125, a
    height or reach not positive, an age outside [18, 40], or a name whose
    stripped form is taken) raises [NameError] and leaves the table as it
    was: the [ValueError] or [IntegrityError] of the body is never what
    the caller sees. *)
Theorem create_boxer_rejects_with_name_error (new_id : Z) (nm : string) (w h r : R) (a : Z)
  (st : Boxing.state) :
  ((w < 125)%R \/ (h <= 0)%R \/ (r <= 0)%R \/ a < 18 \/ 40 < a \/
   Boxing.query_by_name (py_strip nm) st <> None) ->
  BoxingMore.create_boxer new_id nm w h r a st = (BoxingMore.Raised BoxingMore.NameError, st).
Proof.
  intros H. unfold BoxingMore.create_boxer, BoxingMore.create_boxer_body.
  destruct (BoxingMore.get_weight_class w) as [wc|e]; [|reflexivity].
  destruct (Boxing.query_by_name (py_strip nm) st) as [b|] eqn:Hq; [reflexivity|].
  destruct (Rlt_dec w 125); [reflexivity|].
  destruct (Rle_dec h 0); [reflexivity|].
  destruct (Rle_dec r 0); [reflexivity|].
  destruct ((a <? 18) || (40 <? a))%Z eqn:Ha; [reflexivity|exfalso].
  apply orb_false_iff in Ha as [H1 H2]. apply Z.ltb_ge in H1, H2.
  destruct H as [?|[?|[?|[?|[?|?]]]]]; (contradiction || lia).
Qed.

Lemma create_boxer_rejects_with_name_error_witness :
  BoxingMore.create_boxer 2 " Ali " 150 70 72 25 Fixtures.boxing_empty
    = (BoxingMore.Raised BoxingMore.NameError, Fixtures.boxing_empty).
Proof.
  apply create_boxer_rejects_with_name_error.
  right; right; right; right; right. vm_compute. discriminate.
Defined.

(** [Boxers.create_boxer] with valid arguments and a free stripped name
    returns normally and appends one row: the stripped name, no fights, no
    wins, the weight class of the weight. [get_boxer_by_name] then finds
    that row, under the name as given. *)
Theorem create_boxer_then_get_by_name (new_id : Z) (nm : string) (w h r : R) (a : Z)
  (st : Boxing.state) :
  (125 <= w)%R -> (0 < h)%R -> (0 < r)%R -> 18 <= a <= 40 ->
  Boxing.query_by_name (py_strip nm) st = None ->
  exists wc st',
    BoxingMore.get_weight_class w = Ok wc /\
    BoxingMore.create_boxer new_id nm w h r a st = (BoxingMore.Returned, st') /\
    Boxing.boxers_table st' =
      Boxing.boxers_table st ++ [Boxing.mkBoxers new_id (py_strip nm) w h r a 0 0 wc] /\
    Boxing.get_boxer_by_name nm st' =
      Ok (Some (Boxing.mkBoxers new_id (py_strip nm) w h r a 0 0 wc)).
Proof.
  intros Hw Hh Hr Ha Hq.
  assert (Hwc : exists wc, BoxingMore.get_weight_class w = Ok wc).
  { unfold BoxingMore.get_weight_class. repeat destruct Rle_dec; try lra; eexists; reflexivity. }
  destruct Hwc as [wc Hwc].
  set (b := Boxing.mkBoxers new_id (py_strip nm) w h r a 0 0 wc).
  exists wc, (Boxing.set_table (Boxing.boxers_table st ++ [b]) st).
  split; [exact Hwc|]. split; [|split; [reflexivity|]].
  - unfold BoxingMore.create_boxer, BoxingMore.create_boxer_body. rewrite Hwc, Hq.
    destruct (Rlt_dec w 125); [lra|]. destruct (Rle_dec h 0); [lra|].
    destruct (Rle_dec r 0); [lra|].
    replace ((a <? 18) || (40 <? a))%Z with false
      by (symmetry; apply orb_false_iff; split; apply Z.ltb_ge; lia).
    reflexivity.
  - unfold Boxing.get_boxer_by_name, Boxing.query_by_name. simpl.
    unfold Boxing.query_by_name in Hq. rewrite (find_app_none _ _ _ Hq). simpl.
    now rewrite String.eqb_refl.
Qed.

Lemma create_boxer_then_get_by_name_witness :
  exists wc st',
    BoxingMore.get_weight_class 150 = Ok wc /\
    BoxingMore.create_boxer 2 " Joe " 150 70 72 25 Fixtures.boxing_empty
      = (BoxingMore.Returned, st') /\
    Boxing.boxers_table st' =
      Boxing.boxers_table Fixtures.boxing_empty
        ++ [Boxing.mkBoxers 2 (py_strip " Joe ") 150 70 72 25 0 0 wc] /\
    Boxing.get_boxer_by_name " Joe " st' =
      Ok (Some (Boxing.mkBoxers 2 (py_strip " Joe ") 150 70 72 25 0 0 wc)).
Proof.
  apply create_boxer_then_get_by_name; [lra|lra|lra|lia|reflexivity].
Defined.

(** [Cars.create_car] with an invalid argument raises [ValueError] and
    leaves the table as it was. *)
Theorem create_car_rejects (new_id : Z) (mk md : string) (year hp : Z) (w z : R)
  (top hd : Z) (wld : Racing.world) :
  (mk = "" \/ md = "" \/ year < 1950 \/ 2025 < year \/ hp <= 0 \/ (w <= 0)%R \/
   (z <= 0)%R \/ top <= 0 \/ hd < 1 \/ 10 < hd) ->
  RacingMore.create_car new_id mk md year hp w z top hd wld = (Err ValueError, wld).
Proof.
  intros H. unfold RacingMore.create_car.
  destruct (RacingMore.create_car_invalid mk md year hp w z top hd) eqn:E;
    [reflexivity|exfalso].
  unfold RacingMore.create_car_invalid in E.
  destruct (Rle_dec w 0), (Rle_dec z 0); rewrite ?orb_true_r in E; try discriminate.
  repeat rewrite orb_false_iff in E.
  destruct E as [[[[[[[[[E1 E2] E3] E4] E5] _] _] E8] E9] E10].
  apply String.eqb_neq in E1, E2. apply Z.ltb_ge in E3, E4, E9, E10.
  apply Z.leb_gt in E5, E8.
  destruct H as [?|[?|[?|[?|[?|[?|[?|[?|[?|?]]]]]]]]]; (contradiction || lia).
Qed.

Lemma create_car_rejects_witness :
  RacingMore.create_car 3 "Ford" "Model T" 1908 20 1200 30 45 3 Fixtures.track_empty
    = (Err ValueError, Fixtures.track_empty).
Proof. apply create_car_rejects. right; right; left. lia. Defined.

(** [Cars.create_car] with valid arguments returns normally and appends
    one row with no races, no wins and the class of its power-to-weight
    ratio; the validation leaves no way for [get_car_class] to fail. When
    the new key and the make/model pair were free, [get_car_by_id] and
    [get_car_by_make_model] then return that row. *)
Theorem create_car_round_trip (new_id : Z) (mk md : string) (year hp : Z) (w z : R)
  (top hd : Z) (wld : Racing.world) :
  mk <> "" -> md <> "" -> 1950 <= year <= 2025 -> 0 < hp -> (0 < w)%R -> (0 < z)%R ->
  0 < top -> 1 <= hd <= 10 ->
  exists cls wld',
    RacingMore.get_car_class hp w = Ok cls /\
    RacingMore.create_car new_id mk md year hp w z top hd wld = (Ok tt, wld') /\
    Racing.cars_table wld' =
      Racing.cars_table wld ++ [Racing.mkCars new_id mk md year hp w z top hd cls 0 0] /\
    (find (fun c => Z.eqb (Racing.id c) new_id) (Racing.cars_table wld) = None ->
     fst (Racing.get_car_by_id new_id wld') =
       Ok (Racing.mkCars new_id mk md year hp w z top hd cls 0 0)) /\
    (RacingMore.get_car_by_make_model mk md wld = Err ValueError ->
     RacingMore.get_car_by_make_model mk md wld' =
       Ok (Racing.mkCars new_id mk md year hp w z top hd cls 0 0)).
Proof.
  intros Hmk Hmd Hy Hhp Hw Hz Ht Hhd.
  assert (Hcls : exists cls, RacingMore.get_car_class hp w = Ok cls).
  { unfold RacingMore.get_car_class.
    destruct (Z.leb_spec hp 0); [lia|]. destruct (Rle_dec w 0); [lra|].
    repeat destruct Rlt_dec; eexists; reflexivity. }
  destruct Hcls as [cls Hcls].
  set (c := Racing.mkCars new_id mk md year hp w z top hd cls 0 0).
  exists cls, (Racing.set_table (Racing.cars_table wld ++ [c]) wld).
  split; [exact Hcls|]. split; [|split; [reflexivity|split]].
  - unfold RacingMore.create_car.
    replace (RacingMore.create_car_invalid mk md year hp w z top hd) with false.
    + now rewrite Hcls.
    + symmetry. unfold RacingMore.create_car_invalid.
      destruct (Rle_dec w 0); [lra|]. destruct (Rle_dec z 0); [lra|].
      apply String.eqb_neq in Hmk, Hmd. rewrite Hmk, Hmd.
      replace (year <? 1950) with false by (symmetry; apply Z.ltb_ge; lia).
      replace (2025 <? year) with false by (symmetry; apply Z.ltb_ge; lia).
      replace (hp <=? 0) with false by (symmetry; apply Z.leb_gt; lia).
      replace (top <=? 0) with false by (symmetry; apply Z.leb_gt; lia).
      replace (hd <? 1) with false by (symmetry; apply Z.ltb_ge; lia).
      replace (10 <? hd) with false by (symmetry; apply Z.ltb_ge; lia).
      reflexivity.
  - intros Hn. unfold Racing.get_car_by_id. simpl.
    rewrite (find_app_none _ _ _ Hn). simpl. now rewrite Z.eqb_refl.
  - unfold RacingMore.get_car_by_make_model. simpl.
    destruct (find _ (Racing.cars_table wld)) eqn:Hf; [discriminate|intros _].
    rewrite (find_app_none _ _ _ Hf). simpl. now rewrite !String.eqb_refl.
Qed.

Lemma create_car_round_trip_witness :
  exists cls wld',
    RacingMore.get_car_class 500 1500 = Ok cls /\
    RacingMore.create_car 3 "Ford" "GT" 2020 500 1500 3 200 8 Fixtures.track_empty
      = (Ok tt, wld') /\
    Racing.cars_table wld' =
      Racing.cars_table Fixtures.track_empty
        ++ [Racing.mkCars 3 "Ford" "GT" 2020 500 1500 3 200 8 cls 0 0] /\
    (find (fun c => Z.eqb (Racing.id c) 3) (Racing.cars_table Fixtures.track_empty) = None ->
     fst (Racing.get_car_by_id 3 wld') =
       Ok (Racing.mkCars 3 "Ford" "GT" 2020 500 1500 3 200 8 cls 0 0)) /\
    (RacingMore.get_car_by_make_model "Ford" "GT" Fixtures.track_empty = Err ValueError ->
     RacingMore.get_car_by_make_model "Ford" "GT" wld' =
       Ok (Racing.mkCars 3 "Ford" "GT" 2020 500 1500 3 200 8 cls 0 0)).
Proof.
  apply create_car_round_trip; try discriminate; try lia; lra.
Defined.

Lemma round_half_even_bounds (q : Q) (n : Z) :
  (0 <= q)%Q -> (q <= inject_Z n)%Q -> (0 <= PySort.round_half_even q <= n)%Z.
Proof.
  intros H0 Hn. unfold PySort.round_half_even.
  pose proof (Qfloor_le q) as Hf. pose proof (Qlt_floor q) as Hc.
  set (fl := Qfloor q) in *.
  assert (Hfl0 : (0 <= fl)%Z).
  { assert (0 < fl + 1)%Z by (rewrite Zlt_Qlt; exact (Qle_lt_trans _ _ _ H0 Hc)). lia. }
  assert (Hfln : (fl <= n)%Z) by (rewrite Zle_Qle; exact (Qle_trans _ _ _ Hf Hn)).
  destruct (Qlt_le_dec (q - inject_Z fl) (1 # 2)) as [Hl|Hl]; [lia|].
  assert (Hlt : (fl < n)%Z).
  { rewrite Zlt_Qlt. apply Qlt_le_trans with q; [|exact Hn].
    apply Qlt_minus_iff. apply Qlt_le_trans with (1 # 2); [reflexivity|exact Hl]. }
  destruct (Qeq_bool _ _); [destruct (Z.even fl)|]; lia.
Qed.

(** Below [2^52], a positive value has a quantum of at most one. *)
Lemma qexp_nonpos (a : Z) (b : positive) (n : Z) :
  (0 < a)%Z -> (a # b <= inject_Z n)%Q -> (n < 2 ^ 52)%Z -> (Binary64.qexp a b <= 0)%Z.
Proof.
  intros Ha Hq Hn. unfold Binary64.qexp.
  assert (Binary64.fexp a b <= Z.log2 a - Z.log2 (Zpos b))%Z as Hf
    by (unfold Binary64.fexp; destruct (Qle_bool _ _); lia).
  unfold Qle, inject_Z in Hq; simpl in Hq.
  assert (0 < n)%Z as Hn0 by nia.
  assert (Z.log2 a <= Z.log2 (n * Zpos b))%Z as H1 by (apply Z.log2_le_mono; lia).
  pose proof (Z.log2_mul_above n (Zpos b) ltac:(lia) ltac:(lia)) as H2.
  assert (Z.log2 n < 52)%Z as H3 by (apply Z.log2_lt_pow2; lia).
  lia.
Qed.

(** A value in [[0, n]], for an integer [n] below [2^52], rounds to a
    double in [[0, n]]. *)
Lemma binary64_bounds (q : Q) (n : Z) :
  (0 <= q <= inject_Z n)%Q -> (n < 2 ^ 52)%Z -> (0 <= Binary64.binary64 q <= inject_Z n)%Q.
Proof.
  intros [H0 Hn] Hn52. destruct q as [[|a|a] b]; unfold Binary64.binary64; simpl.
  - split; [apply Qle_refl|]. unfold Qle in Hn |- *; simpl in Hn |- *. lia.
  - pose proof (qexp_nonpos (Zpos a) b n eq_refl Hn Hn52) as He.
    unfold Binary64.round_pos. set (e := Binary64.qexp (Zpos a) b) in *.
    set (P := (2 ^ (- e))%Z).
    assert (0 < P)%Z as HP by (apply Z.pow_pos_nonneg; lia).
    assert (Binary64.pow2 (- e) = inject_Z P) as E1
      by (unfold Binary64.pow2; replace (Z.leb 0 (- e)) with true by (symmetry; apply Z.leb_le; lia);
          reflexivity).
    assert (Binary64.pow2 e == 1 # Z.to_pos P)%Q as E2.
    { unfold Binary64.pow2. destruct (Z.leb 0 e) eqn:Ee.
      - apply Z.leb_le in Ee. assert (e = 0)%Z as -> by lia. reflexivity.
      - reflexivity. }
    rewrite E1, E2.
    destruct (round_half_even_bounds ((Zpos a # b) * inject_Z P) (n * P)) as [R0 R1].
    + apply Qmult_le_0_compat; [exact H0|]. unfold Qle, inject_Z; simpl; lia.
    + rewrite inject_Z_mult. apply Qmult_le_compat_r; [exact Hn|].
      unfold Qle, inject_Z; simpl; lia.
    + revert R0 R1. generalize (PySort.round_half_even ((Zpos a # b) * inject_Z P)).
      intros m R0 R1. unfold Qle, Qmult, inject_Z; simpl.
      rewrite Pos.mul_1_l, Z2Pos.id by exact HP. split; nia.
  - exfalso. unfold Qle in H0; simpl in H0. lia.
Qed.

(** [round((wins / fights) * 100, 1)] in doubles lies in [[0, 100]] when
    [0 <= wins <= fights] and [fights > 0]. *)
Lemma win_pct_bounds (w f : Z) :
  (0 <= w <= f)%Z -> (0 < f)%Z ->
  (0 <= Binary64.round1 (Binary64.mul (Binary64.div (inject_Z w) (inject_Z f)) 100) <= 100)%Q.
Proof.
  intros Hw Hf.
  assert (0 <= Binary64.div (inject_Z w) (inject_Z f) <= inject_Z 1)%Q as [D0 D1].
  { apply binary64_bounds; [|lia]. destruct f as [|p|p]; try lia.
    unfold Qle, Qdiv, Qmult, Qinv, inject_Z; simpl; nia. }
  assert (0 <= Binary64.mul (Binary64.div (inject_Z w) (inject_Z f)) 100 <= inject_Z 100)%Q
    as [M0 M1].
  { apply binary64_bounds; [|lia]. split.
    - apply Qmult_le_0_compat; [exact D0|discriminate].
    - apply Qle_trans with (inject_Z 1 * 100)%Q; [apply Qmult_le_compat_r; [exact D1|discriminate]|].
      unfold Qle; simpl; lia. }
  unfold Binary64.round1.
  destruct (round_half_even_bounds (Binary64.mul (Binary64.div (inject_Z w) (inject_Z f)) 100 * 10)
              1000) as [R0 R1].
  - apply Qmult_le_0_compat; [exact M0|discriminate].
  - apply Qle_trans with (inject_Z 100 * 10)%Q; [apply Qmult_le_compat_r; [exact M1|discriminate]|].
    unfold Qle; simpl; lia.
  - apply (binary64_bounds _ 100); [|lia].
    revert R0 R1. generalize (PySort.round_half_even
      (Binary64.mul (Binary64.div (inject_Z w) (inject_Z f)) 100 * 10)). intros r R0 R1.
    unfold Qle, Qdiv, Qmult, Qinv, inject_Z; simpl; lia.
Qed.

(** The shape of both leaderboards: rows turned into entries, then sorted. *)
Lemma sort_entries {A B : Type} (key : B -> Q) (f : A -> B) (g : B -> A) (l : list A) :
  (forall a, g (f a) = a) ->
  Permutation (PySort.sort_desc key (map f l)) (map f l) /\
  Permutation (map g (PySort.sort_desc key (map f l))) l /\
  Sorted (SortFacts.desc key) (PySort.sort_desc key (map f l)) /\
  (forall q, SortFacts.with_key key q (PySort.sort_desc key (map f l))
             = SortFacts.with_key key q (map f l)).
Proof.
  intros Hgf.
  pose proof (SortFacts.sort_desc_perm key (map f l)) as Hp.
  split; [exact Hp|split; [|split]].
  - rewrite Hp, map_map, (map_ext (fun x => g (f x)) (fun x => x) Hgf), map_id.
    reflexivity.
  - apply SortFacts.sort_desc_sorted.
  - intros q. apply SortFacts.sort_desc_stable.
Qed.

(** Both [get_leaderboard]s raise [ValueError] for a [sort_by] other than
    ["wins"] and ["win_pct"]. *)
Theorem get_leaderboard_rejects_sort_by (sort_by : string) (st : Boxing.state)
  (w : Racing.world) :
  sort_by <> "wins" -> sort_by <> "win_pct" ->
  BoxingMore.get_leaderboard sort_by st = Err ValueError /\
  RacingMore.get_leaderboard sort_by w = Err ValueError.
Proof.
  intros H1 H2. apply String.eqb_neq in H1, H2.
  unfold BoxingMore.get_leaderboard, RacingMore.get_leaderboard. now rewrite H1, H2.
Qed.

(** [Boxers.get_leaderboard] with a valid [sort_by] lists exactly the
    boxers with at least one fight, each once, in descending order of the
    sort key; boxers with equal keys keep the order of the query; each
    [win_pct] is the one of [compute_win_pct], within [0, 100] when the
    boxer's wins do not exceed its fights. *)
Theorem boxers_leaderboard_sorted (sort_by : string) (st : Boxing.state) :
  sort_by = "wins" \/ sort_by = "win_pct" ->
  let rows := List.filter (fun b => 0 <? Boxing.fights b) (Boxing.boxers_table st) in
  let key := BoxingMore.sort_key sort_by in
  exists lb,
    BoxingMore.get_leaderboard sort_by st = Ok lb /\
    Permutation (map BoxingMore.row lb) rows /\
    Sorted (SortFacts.desc key) lb /\
    (forall q, SortFacts.with_key key q lb =
               SortFacts.with_key key q
                 (map (fun b => BoxingMore.mkEntry b (BoxingMore.compute_win_pct b)) rows)) /\
    Forall (fun e => BoxingMore.win_pct e = BoxingMore.compute_win_pct (BoxingMore.row e) /\
                     (0 <= Boxing.wins (BoxingMore.row e) <= Boxing.fights (BoxingMore.row e) ->
                      (0 <= BoxingMore.win_pct e <= 100)%Q)) lb.
Proof.
  intros Hs rows key.
  destruct (sort_entries key (fun b => BoxingMore.mkEntry b (BoxingMore.compute_win_pct b))
              BoxingMore.row rows (fun _ => eq_refl)) as (Hp & Hr & Hsort & Hstab).
  eexists. split.
  - unfold BoxingMore.get_leaderboard.
    replace (negb (String.eqb sort_by "wins" || String.eqb sort_by "win_pct")) with false
      by (destruct Hs as [->| ->]; reflexivity).
    reflexivity.
  - split; [exact Hr|split; [exact Hsort|split; [exact Hstab|]]].
    apply Forall_forall. intros e He. apply list_elem_of_In in He.
    apply (Permutation_in _ Hp), in_map_iff in He as (b & <- & Hb).
    apply filter_In in Hb as [_ Hb]. apply Z.ltb_lt in Hb. simpl.
    split; [reflexivity|]. intros Hw. unfold BoxingMore.compute_win_pct.
    apply Z.ltb_lt in Hb as Hb'. rewrite Hb'.
    apply win_pct_bounds; lia.
Qed.

(** [Cars.get_leaderboard] with a valid [sort_by]: the same for the cars
    with at least one race. *)
Theorem cars_leaderboard_sorted (sort_by : string) (w : Racing.world) :
  sort_by = "wins" \/ sort_by = "win_pct" ->
  let rows := List.filter (fun c => 0 <? Racing.races c) (Racing.cars_table w) in
  let key := RacingMore.sort_key sort_by in
  exists lb,
    RacingMore.get_leaderboard sort_by w = Ok lb /\
    Permutation (map RacingMore.row lb) rows /\
    Sorted (SortFacts.desc key) lb /\
    (forall q, SortFacts.with_key key q lb =
               SortFacts.with_key key q
                 (map (fun c => RacingMore.mkEntry c (RacingMore.compute_win_pct c)) rows)) /\
    Forall (fun e => RacingMore.win_pct e = RacingMore.compute_win_pct (RacingMore.row e) /\
                     (0 <= Racing.wins (RacingMore.row e) <= Racing.races (RacingMore.row e) ->
                      (0 <= RacingMore.win_pct e <= 100)%Q)) lb.
Proof.
  intros Hs rows key.
  destruct (sort_entries key (fun c => RacingMore.mkEntry c (RacingMore.compute_win_pct c))
              RacingMore.row rows (fun _ => eq_refl)) as (Hp & Hr & Hsort & Hstab).
  eexists. split.
  - unfold RacingMore.get_leaderboard.
    replace (negb (String.eqb sort_by "wins" || String.eqb sort_by "win_pct")) with false
      by (destruct Hs as [->| ->]; reflexivity).
    reflexivity.
  - split; [exact Hr|split; [exact Hsort|split; [exact Hstab|]]].
    apply Forall_forall. intros e He. apply list_elem_of_In in He.
    apply (Permutation_in _ Hp), in_map_iff in He as (c & <- & Hc).
    apply filter_In in Hc as [_ Hc]. apply Z.ltb_lt in Hc. simpl.
    split; [reflexivity|]. intros Hw. unfold RacingMore.compute_win_pct.
    apply Z.ltb_lt in Hc as Hc'. rewrite Hc'.
    apply win_pct_bounds; lia.
Qed.

Lemma get_leaderboard_rejects_sort_by_witness :
  BoxingMore.get_leaderboard "name" Fixtures.boxing_league = Err ValueError /\
  RacingMore.get_leaderboard "name" Fixtures.racing_league = Err ValueError.
Proof. apply get_leaderboard_rejects_sort_by; discriminate. Defined.

Lemma boxers_leaderboard_sorted_witness :
  let rows := List.filter (fun b => 0 <? Boxing.fights b)
                          (Boxing.boxers_table Fixtures.boxing_league) in
  let key := BoxingMore.sort_key "win_pct" in
  exists lb,
    BoxingMore.get_leaderboard "win_pct" Fixtures.boxing_league = Ok lb /\
    Permutation (map BoxingMore.row lb) rows /\
    Sorted (SortFacts.desc key) lb /\
    (forall q, SortFacts.with_key key q lb =
               SortFacts.with_key key q
                 (map (fun b => BoxingMore.mkEntry b (BoxingMore.compute_win_pct b)) rows)) /\
    Forall (fun e => BoxingMore.win_pct e = BoxingMore.compute_win_pct (BoxingMore.row e) /\
                     (0 <= Boxing.wins (BoxingMore.row e) <= Boxing.fights (BoxingMore.row e) ->
                      (0 <= BoxingMore.win_pct e <= 100)%Q)) lb.
Proof. apply boxers_leaderboard_sorted. right. reflexivity. Defined.

Lemma cars_leaderboard_sorted_witness :
  let rows := List.filter (fun c => 0 <? Racing.races c)
                          (Racing.cars_table Fixtures.racing_league) in
  let key := RacingMore.sort_key "wins" in
  exists lb,
    RacingMore.get_leaderboard "wins" Fixtures.racing_league = Ok lb /\
    Permutation (map RacingMore.row lb) rows /\
    Sorted (SortFacts.desc key) lb /\
    (forall q, SortFacts.with_key key q lb =
               SortFacts.with_key key q
                 (map (fun c => RacingMore.mkEntry c (RacingMore.compute_win_pct c)) rows)) /\
    Forall (fun e => RacingMore.win_pct e = RacingMore.compute_win_pct (RacingMore.row e) /\
                     (0 <= Racing.wins (RacingMore.row e) <= Racing.races (RacingMore.row e) ->
                      (0 <= RacingMore.win_pct e <= 100)%Q)) lb.
Proof. apply cars_leaderboard_sorted. left. reflexivity. Defined.

Lemma get_car_by_id_keeps (k : Z) (w w1 : Racing.world) r :
  Racing.get_car_by_id k w = (r, w1) ->
  Racing.track w1 = Racing.track w /\ Racing.ttl_seconds w1 = Racing.ttl_seconds w /\
  Racing.cars_table w1 = Racing.cars_table w /\ Racing.query_log w1 = k :: Racing.query_log w.
Proof. unfold Racing.get_car_by_id. destruct (find _ _); now intros [= _ <-]. Qed.

Lemma get_cars_step_keeps (now : instant) (k : Z) (w w1 : Racing.world) r :
  Racing.get_cars_step now k w = (r, w1) ->
  Racing.track w1 = Racing.track w /\ Racing.ttl_seconds w1 = Racing.ttl_seconds w /\
  Racing.cars_table w1 = Racing.cars_table w.
Proof.
  unfold Racing.get_cars_step. destruct (Racing.expired now k w).
  - destruct (Racing.get_car_by_id k w) as [[c|e] w0] eqn:H;
      destruct (get_car_by_id_keeps _ _ _ _ H) as (T & S & D & _); intros [= _ <-];
      simpl; auto.
  - destruct (Racing._car_cache w !! k); now intros [= _ <-].
Qed.

Lemma get_cars_loop_keeps (now : instant) (ids : list Z) (w w1 : Racing.world) r :
  Racing.get_cars_loop now ids w = (r, w1) ->
  Racing.track w1 = Racing.track w /\ Racing.ttl_seconds w1 = Racing.ttl_seconds w /\
  Racing.cars_table w1 = Racing.cars_table w.
Proof.
  revert w w1 r. induction ids as [|k ids IH]; intros w w1 r H; simpl in H.
  - now injection H as _ <-.
  - destruct (Racing.get_cars_step now k w) as [[c|e] w0] eqn:H0;
      destruct (get_cars_step_keeps _ _ _ _ _ H0) as (T0 & S0 & D0).
    + destruct (Racing.get_cars_loop now ids w0) as [[cs|e] w2] eqn:H2;
        destruct (IH _ _ _ H2) as (T2 & S2 & D2); injection H as _ <-; repeat split; congruence.
    + injection H as _ <-. auto.
Qed.

Lemma get_cars_keeps (now : instant) (w w1 : Racing.world) r :
  Racing.get_cars now w = (r, w1) ->
  Racing.track w1 = Racing.track w /\ Racing.ttl_seconds w1 = Racing.ttl_seconds w /\
  Racing.cars_table w1 = Racing.cars_table w.
Proof.
  unfold Racing.get_cars. destruct (Racing.track w) eqn:E.
  - now intros [= _ <-].
  - intros H. rewrite <- E in H. rewrite <- E. exact (get_cars_loop_keeps _ _ _ _ _ H).
Qed.

Lemma enter_track_track (now : instant) (k : Z) (w w1 : Racing.world) r :
  Racing.enter_track now k w = (r, w1) ->
  Racing.track w1 = Racing.track w \/
  ((length (Racing.track w) < 2)%nat /\ Racing.track w1 = Racing.track w ++ [k]).
Proof.
  unfold Racing.enter_track.
  destruct (2 <=? length (Racing.track w))%nat eqn:E; [intros [= _ <-]; now left|].
  apply Nat.leb_gt in E.
  destruct (Racing.get_car_by_id k w) as [[c|e] w0] eqn:H0;
    destruct (get_car_by_id_keeps _ _ _ _ H0) as (T0 & _ & _ & _).
  - intros H. destruct (log_cars_frame _ _ _ _ H) as (T & _ & _).
    right. split; [exact E|]. rewrite T. simpl. now rewrite T0.
  - intros [= _ <-]. now left.
Qed.

Lemma race_with_track (score : Racing.Cars -> R) (now : instant) (x : R)
  (w w1 : Racing.world) r :
  Racing.race_with score now x w = (r, w1) ->
  Racing.track w1 = Racing.track w \/ Racing.track w1 = [].
Proof.
  unfold Racing.race_with.
  destruct (length (Racing.track w) <? 2)%nat; [intros [= _ <-]; now left|].
  destruct (Racing.get_cars now w) as [[cs|e] w0] eqn:H0;
    destruct (get_cars_keeps _ _ _ _ H0) as (T0 & _ & _); [|intros [= _ <-]; now left].
  destruct cs as [|c1 [|c2 [|c3 cs]]]; try (intros [= _ <-]; now left).
  destruct (Racing.race_pick _ _ _ _ _) as [wi lo].
  destruct (Racing.update_stats wi "win" w0) as [[u|e] w2] eqn:H2;
    pose proof (update_stats_track _ _ _ _ _ H2) as T2; [|intros [= _ <-]; left; congruence].
  destruct (Racing.update_stats lo "loss" w2) as [[u'|e] w3] eqn:H3;
    pose proof (update_stats_track _ _ _ _ _ H3) as T3; [|intros [= _ <-]; left; congruence].
  intros [= _ <-]. right. apply RacingFacts.track_clear_track.
Qed.

(** Whatever public methods are called on a [TrackModel], in any order,
    and whatever they raise, its track never holds more than two cars. *)
Theorem track_never_exceeds_two (cs : list RacingMore.track_call) (w : Racing.world) :
  (length (Racing.track w) <= 2)%nat ->
  (length (Racing.track (RacingMore.run_calls cs w)) <= 2)%nat.
Proof.
  unfold RacingMore.run_calls. revert w.
  induction cs as [|c cs IH]; intros w H; simpl; [exact H|].
  apply IH. destruct c as [now k|now x| | |now]; simpl.
  - destruct (Racing.enter_track now k w) as [r w1] eqn:E. simpl.
    destruct (enter_track_track _ _ _ _ _ E) as [->|[Hl ->]]; [exact H|].
    rewrite length_app. simpl. lia.
  - destruct (Racing.race now x w) as [r w1] eqn:E. simpl.
    destruct (race_with_track _ _ _ _ _ _ E) as [->| ->]; [exact H|simpl; lia].
  - rewrite RacingFacts.track_clear_track. simpl. lia.
  - exact H.
  - destruct (Racing.get_cars now w) as [r w1] eqn:E. simpl.
    destruct (get_cars_keeps _ _ _ _ E) as (-> & _ & _). exact H.
Qed.

Lemma track_never_exceeds_two_witness :
  Nat.le (length (Racing.track
     (RacingMore.run_calls
        [RacingMore.EnterTrack 0 1; RacingMore.EnterTrack 0 2; RacingMore.EnterTrack 1 1;
         RacingMore.GetCars 10; RacingMore.Race 20 (1 / 2); RacingMore.ClearCache;
         RacingMore.EnterTrack 30 2; RacingMore.ClearTrack]
        Fixtures.track_empty))) 2.
Proof. apply track_never_exceeds_two. simpl. lia. Defined.

(** [Cars.update_stats] with [wins <= races] on the car and on every row:
    a result other than ["win"] or ["loss"] raises [ValueError] and
    changes nothing; otherwise it returns normally, the car's rows gain one
    race (and one win for ["win"]), every row still has [wins <= races],
    and the track, its caches and the query log are untouched. *)
Theorem cars_update_stats_counts (car : Racing.Cars) (res : string) (w : Racing.world) :
  (forall r, In r (Racing.cars_table w) -> 0 <= Racing.wins r <= Racing.races r) ->
  0 <= Racing.wins car <= Racing.races car ->
  let valid := (String.eqb res "win" || String.eqb res "loss")%bool in
  exists w',
    Racing.update_stats car res w = (if valid then Ok tt else Err ValueError, w') /\
    (valid = false -> w' = w) /\
    Racing.track w' = Racing.track w /\ Racing._car_cache w' = Racing._car_cache w /\
    Racing._ttl w' = Racing._ttl w /\ Racing.query_log w' = Racing.query_log w /\
    length (Racing.cars_table w') = length (Racing.cars_table w) /\
    (forall r, In r (Racing.cars_table w') -> 0 <= Racing.wins r <= Racing.races r) /\
    (valid = true -> forall r, In r (Racing.cars_table w') -> Racing.id r = Racing.id car ->
       Racing.races r = Racing.races car + 1 /\
       Racing.wins r = Racing.wins car + (if String.eqb res "win" then 1 else 0)).
Proof.
  intros Hall Hc valid. unfold Racing.update_stats. subst valid.
  destruct (String.eqb res "win") eqn:Ew.
  - simpl.
    destruct (Z.ltb_spec (Racing.races car + 1) (Racing.wins car + 1)); [lia|].
    eexists. split; [reflexivity|]. split; [discriminate|].
    simpl. do 4 (split; [reflexivity|]). split; [apply length_map|]. split.
    + intros r Hr. apply in_map_iff in Hr as (r0 & <- & Hr0).
      destruct (Racing.id r0 =? Racing.id car); simpl; [lia|]. now apply Hall.
    + intros _ r Hr Hid. apply in_map_iff in Hr as (r0 & <- & Hr0).
      destruct (Racing.id r0 =? Racing.id car) eqn:Ei; simpl; [split; reflexivity|].
      apply Z.eqb_neq in Ei. contradiction.
  - destruct (String.eqb res "loss") eqn:El; simpl.
    + destruct (Z.ltb_spec (Racing.races car + 1) (Racing.wins car)); [lia|].
      eexists. split; [reflexivity|]. split; [discriminate|].
      simpl. do 4 (split; [reflexivity|]). split; [apply length_map|]. split.
      * intros r Hr. apply in_map_iff in Hr as (r0 & <- & Hr0).
        destruct (Racing.id r0 =? Racing.id car); simpl; [lia|]. now apply Hall.
      * intros _ r Hr Hid. apply in_map_iff in Hr as (r0 & <- & Hr0).
        destruct (Racing.id r0 =? Racing.id car) eqn:Ei; simpl; [split; lia|].
        apply Z.eqb_neq in Ei. contradiction.
    + exists w. split; [reflexivity|]. split; [reflexivity|].
      do 5 (split; [reflexivity|]). split; [exact Hall|discriminate].
Qed.

Lemma cars_update_stats_counts_witness :
  let car := Racing.mkCars 1 "Ferrari" "F8 Tributo" 2020 710 1435 (29 / 10) 211 9 "Hyper" 3 1 in
  let w := Fixtures.racing_league in
  let valid := (String.eqb "win" "win" || String.eqb "win" "loss")%bool in
  exists w',
    Racing.update_stats car "win" w = (if valid then Ok tt else Err ValueError, w') /\
    (valid = false -> w' = w) /\
    Racing.track w' = Racing.track w /\ Racing._car_cache w' = Racing._car_cache w /\
    Racing._ttl w' = Racing._ttl w /\ Racing.query_log w' = Racing.query_log w /\
    length (Racing.cars_table w') = length (Racing.cars_table w) /\
    (forall r, In r (Racing.cars_table w') -> 0 <= Racing.wins r <= Racing.races r) /\
    (valid = true -> forall r, In r (Racing.cars_table w') -> Racing.id r = Racing.id car ->
       Racing.races r = Racing.races car + 1 /\
       Racing.wins r = Racing.wins car + (if String.eqb "win" "win" then 1 else 0)).
Proof.
  apply cars_update_stats_counts.
  - intros r Hr. simpl in Hr. destruct Hr as [<-|[<-|[<-|[]]]]; simpl; lia.
  - simpl. lia.
Defined.

Lemma expired_same_ttl (now : instant) (j : Z) (w w' : Racing.world) :
  Racing._ttl w' !! j = Racing._ttl w !! j -> Racing.expired now j w' = Racing.expired now j w.
Proof.
  intros H. unfold Racing.expired.
  exact (f_equal (fun o => match o with Some e => Z.ltb e now | None => true end) H).
Qed.

Lemma expired_none (now : instant) (j : Z) (w : Racing.world) :
  Racing._ttl w !! j = None -> Racing.expired now j w = true.
Proof.
  intros H. unfold Racing.expired.
  exact (f_equal (fun o => match o with Some e => Z.ltb e now | None => true end) H).
Qed.

(** One step of [get_cars] keeps every live entry and leaves its own car
    live and cached. *)
Lemma get_cars_step_fixes (now : instant) (k : Z) (w w1 : Racing.world) (c : Racing.Cars) :
  0 <= Racing.ttl_seconds w ->
  Racing.get_cars_step now k w = (Ok c, w1) ->
  (forall j, Racing.expired now j w = false ->
             Racing._ttl w1 !! j = Racing._ttl w !! j /\
             Racing._car_cache w1 !! j = Racing._car_cache w !! j) /\
  Racing.expired now k w1 = false /\ Racing._car_cache w1 !! k = Some c.
Proof.
  intros Httl. unfold Racing.get_cars_step. destruct (Racing.expired now k w) eqn:Ek.
  - destruct (Racing.get_car_by_id k w) as [[c0|e] w0] eqn:H0; [|discriminate].
    destruct (get_car_by_id_frame _ _ _ _ H0) as (_ & C0 & T0 & _).
    destruct (get_car_by_id_keeps _ _ _ _ H0) as (_ & S0 & _ & _).
    intros [= <- <-]. simpl. split; [|split].
    + intros j Ej. assert (j <> k) as Hne by congruence.
      rewrite !lookup_insert_ne by congruence. now rewrite C0, T0.
    + unfold Racing.expired. simpl. rewrite lookup_insert_eq. apply Z.ltb_ge. lia.
    + apply lookup_insert_eq.
  - destruct (Racing._car_cache w !! k) as [c0|] eqn:Hc; [|discriminate].
    intros [= <- <-]. auto.
Qed.

Lemma get_cars_loop_fixes (now : instant) (ids : list Z) (w w1 : Racing.world)
  (cs : list Racing.Cars) :
  0 <= Racing.ttl_seconds w ->
  Racing.get_cars_loop now ids w = (Ok cs, w1) ->
  (forall j, Racing.expired now j w = false ->
             Racing._ttl w1 !! j = Racing._ttl w !! j /\
             Racing._car_cache w1 !! j = Racing._car_cache w !! j) /\
  Forall2 (fun k c => Racing.expired now k w1 = false /\ Racing._car_cache w1 !! k = Some c)
          ids cs.
Proof.
  revert w w1 cs. induction ids as [|k ids IH]; intros w w1 cs Httl H; simpl in H.
  - injection H as <- <-. split; [auto|constructor].
  - destruct (Racing.get_cars_step now k w) as [[c|e] w0] eqn:H0; [|discriminate].
    destruct (Racing.get_cars_loop now ids w0) as [[cs'|e] w2] eqn:H2; [|discriminate].
    injection H as <- <-.
    destruct (get_cars_step_keeps _ _ _ _ _ H0) as (_ & S0 & _).
    destruct (get_cars_step_fixes _ _ _ _ _ Httl H0) as (F0 & Ek & Ck).
    destruct (IH w0 w2 cs') as (F2 & All2); [lia|exact H2|].
    split.
    + intros j Ej. destruct (F0 j Ej) as [T0j C0j].
      assert (Racing.expired now j w0 = false) as Ej0
        by (rewrite (expired_same_ttl _ _ _ _ T0j); exact Ej).
      destruct (F2 j Ej0) as [T2j C2j]. split; congruence.
    + constructor; [|exact All2].
      destruct (F2 k Ek) as [T2k C2k]. split; [|congruence].
      rewrite (expired_same_ttl _ _ _ _ T2k). exact Ek.
Qed.

Lemma get_cars_loop_replay (now : instant) (ids : list Z) (w : Racing.world)
  (cs : list Racing.Cars) :
  Forall2 (fun k c => Racing.expired now k w = false /\ Racing._car_cache w !! k = Some c)
          ids cs ->
  Racing.get_cars_loop now ids w = (Ok cs, w).
Proof.
  induction 1 as [|k c ids cs [Ek Ck] _ IH]; simpl; [reflexivity|].
  unfold Racing.get_cars_step. rewrite Ek, Ck, IH. reflexivity.
Qed.

(** With a non-negative [ttl_seconds], a second [get_cars] at the same
    instant as one that returned normally returns the same cars and
    changes nothing: no query, no cache write. *)
Theorem get_cars_repeat_no_query (now : instant) (w w1 : Racing.world)
  (cs : list Racing.Cars) :
  0 <= Racing.ttl_seconds w ->
  Racing.get_cars now w = (Ok cs, w1) ->
  Racing.get_cars now w1 = (Ok cs, w1).
Proof.
  intros Httl H. pose proof (get_cars_keeps _ _ _ _ H) as (T1 & _ & _).
  unfold Racing.get_cars in *. rewrite T1.
  destruct (Racing.track w) as [|k ids] eqn:E.
  - now injection H as <- <-.
  - destruct (get_cars_loop_fixes _ _ _ _ _ Httl H) as (_ & All).
    now apply get_cars_loop_replay.
Qed.

Lemma get_cars_repeat_no_query_witness :
  Racing.get_cars 5 (snd (Racing.get_cars 5 Fixtures.track_two_cold))
    = (Ok [Fixtures.ferrari; Fixtures.lambo], snd (Racing.get_cars 5 Fixtures.track_two_cold)).
Proof.
  apply (get_cars_repeat_no_query 5 Fixtures.track_two_cold); [simpl; lia|reflexivity].
Defined.

Lemma get_cars_loop_refetch (now : instant) (ids : list Z) (w : Racing.world) :
  NoDup ids -> (forall k, In k ids -> Racing._ttl w !! k = None) ->
  Forall (in_table w) ids ->
  exists cs w1,
    Racing.get_cars_loop now ids w = (Ok cs, w1) /\
    Racing.query_log w1 = rev ids ++ Racing.query_log w /\
    Forall2 (fun k c => find (fun x => Z.eqb (Racing.id x) k) (Racing.cars_table w) = Some c)
            ids cs.
Proof.
  revert w. induction ids as [|k ids IH]; intros w Hnd Hnone Hin; simpl.
  - exists [], w. auto.
  - inversion Hnd as [|? ? Hk Hnd']; subst.
    inversion Hin as [|? ? [c Hc] Hin']; subst.
    unfold Racing.get_cars_step. rewrite (expired_none now k w (Hnone k (or_introl eq_refl))).
    unfold Racing.get_car_by_id. rewrite Hc. simpl.
    set (w0 := Racing.set_cache _ _ _).
    destruct (IH w0) as (cs & w1 & H1 & L1 & F1).
    + exact Hnd'.
    + intros j Hj. simpl. rewrite lookup_insert_ne.
      * apply Hnone. now right.
      * intros ->. apply Hk. now apply list_elem_of_In.
    + exact Hin'.
    + exists (c :: cs), w1. rewrite H1. split; [reflexivity|]. split.
      * rewrite L1. simpl. now rewrite <- app_assoc.
      * constructor; [exact Hc|exact F1].
Qed.

(** After [clear_cache], [get_cars] reads every car of the track from the
    table again, once each and in track order, when the track holds each
    id once and every id has its row. *)
Theorem clear_cache_refetches (now : instant) (w : Racing.world) :
  NoDup (Racing.track w) -> Forall (in_table w) (Racing.track w) ->
  exists cs w1,
    Racing.get_cars now (Racing.clear_cache w) = (Ok cs, w1) /\
    Racing.query_log w1 = rev (Racing.track w) ++ Racing.query_log w /\
    Forall2 (fun k c => find (fun x => Z.eqb (Racing.id x) k) (Racing.cars_table w) = Some c)
            (Racing.track w) cs.
Proof.
  intros Hnd Hin. unfold Racing.get_cars.
  change (Racing.track (Racing.clear_cache w)) with (Racing.track w).
  destruct (get_cars_loop_refetch now (Racing.track w) (Racing.clear_cache w))
    as (cs & w1 & H1 & L1 & F1); [exact Hnd|intros; apply lookup_empty|exact Hin|].
  destruct (Racing.track w) as [|k ids] eqn:E.
  - exists [], (Racing.clear_cache w). split; [reflexivity|split; [reflexivity|constructor]].
  - exists cs, w1. cbv iota beta.
    split; [exact H1|split; [exact L1|exact F1]].
Qed.

Lemma clear_cache_refetches_witness :
  exists cs w1,
    Racing.get_cars 100 (Racing.clear_cache Fixtures.track_7_12) = (Ok cs, w1) /\
    Racing.query_log w1 =
      rev (Racing.track Fixtures.track_7_12) ++ Racing.query_log Fixtures.track_7_12 /\
    Forall2 (fun k c => find (fun x => Z.eqb (Racing.id x) k)
                             (Racing.cars_table Fixtures.track_7_12) = Some c)
            (Racing.track Fixtures.track_7_12) cs.
Proof.
  apply clear_cache_refetches.
  - repeat constructor; (set_solver || (simpl; intuition lia)).
  - repeat constructor; eexists; reflexivity.
Defined.

Lemma race_normalized_delta_bounds (a b : R) :
  (1 / 2 <= Racing.normalized_delta a b < 1)%R.
Proof.
  unfold Racing.normalized_delta.
  set (x := exp (- Rabs (a - b) / 100)).
  assert (Hx0 : (0 < x)%R) by apply exp_pos.
  assert (Hx1 : (x <= 1)%R).
  { unfold x. rewrite <- exp_0.
    assert (Ht : (- Rabs (a - b) / 100 <= 0)%R).
    { pose proof (Rabs_pos (a - b)). unfold Rdiv. nra. }
    destruct (Rle_lt_or_eq_dec _ _ Ht) as [Hlt| ->]; [|apply Rle_refl].
    left. now apply exp_increasing. }
  unfold Rdiv. rewrite !Rmult_1_l. split.
  - apply Rinv_le_contravar; lra.
  - rewrite <- Rinv_1 at 2. apply Rinv_1_lt_contravar; lra.
Qed.

(** The winning threshold of [race] lies in [0.75, 1], and is exactly 0.75
    for two equal scores. (In doubles [math.e ** (-delta / 100)] vanishes
    against 1 once the scores are some 3700 apart, and the threshold is then
    exactly 1.0, so the upper bound is not strict.) *)
Theorem race_win_probability_bounds (p1 p2 p : R) :
  (3 / 4 <= Racing.win_probability p1 p2 <= 1)%R /\
  Racing.win_probability p p = (3 / 4)%R.
Proof.
  split.
  - unfold Racing.win_probability.
    pose proof (race_normalized_delta_bounds p1 p2). lra.
  - unfold Racing.win_probability, Racing.normalized_delta.
    rewrite Rminus_diag, Rabs_R0.
    replace (- 0 / 100)%R with 0%R by lra. rewrite exp_0. lra.
Qed.

(** A draw below 0.75 makes [race] pick the car with the higher score,
    and the second car on equal scores: [perf_1 > perf_2] is false there,
    so the tie goes to [car_2]. *)
Theorem race_pick_low_draw (p1 p2 r : R) (c1 c2 : Racing.Cars) :
  (r < 3 / 4)%R ->
  ((p2 < p1)%R -> Racing.race_pick p1 p2 r c1 c2 = (c1, c2)) /\
  ((p1 <= p2)%R -> Racing.race_pick p1 p2 r c1 c2 = (c2, c1)).
Proof.
  intros Hr.
  assert (Hw : (r < Racing.win_probability p1 p2)%R)
    by (pose proof (race_normalized_delta_bounds p1 p2);
        unfold Racing.win_probability; lra).
  unfold Racing.race_pick. split; intros Hp.
  - destruct (Rlt_dec p2 p1); [|contradiction].
    destruct (Rlt_dec r _); [reflexivity|contradiction].
  - destruct (Rlt_dec p2 p1); [lra|].
    destruct (Rlt_dec r _); [reflexivity|contradiction].
Qed.

Lemma race_pick_low_draw_witness :
  ((450 < 450)%R -> Racing.race_pick 450 450 (7 / 10) Fixtures.car7 Fixtures.car12
                    = (Fixtures.car7, Fixtures.car12)) /\
  ((450 <= 450)%R -> Racing.race_pick 450 450 (7 / 10) Fixtures.car7 Fixtures.car12
                     = (Fixtures.car12, Fixtures.car7)).
Proof. apply race_pick_low_draw. lra. Defined.

(** [get_performance_score] rises with horsepower, top speed, handling and
    year, and falls with weight (for a positive horsepower) and with the
    0-60 time, all other columns fixed. *)
Theorem performance_score_monotone (c : Racing.Cars) :
  (0 < Racing.weight c)%R -> (0 < Racing.zero_to_sixty c)%R ->
  let score := Racing.get_performance_score in
  let '(Racing.mkCars i mk md y hp w z t h cl rs ws) := c in
  (forall hp', hp < hp' -> (score c < score (Racing.mkCars i mk md y hp' w z t h cl rs ws))%R) /\
  (forall w', 0 < hp -> (0 < w' < w)%R ->
     (score c < score (Racing.mkCars i mk md y hp w' z t h cl rs ws))%R) /\
  (forall z', (0 < z' < z)%R ->
     (score c < score (Racing.mkCars i mk md y hp w z' t h cl rs ws))%R) /\
  (forall t', t < t' -> (score c < score (Racing.mkCars i mk md y hp w z t' h cl rs ws))%R) /\
  (forall h', h < h' -> (score c < score (Racing.mkCars i mk md y hp w z t h' cl rs ws))%R) /\
  (forall y', y < y' -> (score c < score (Racing.mkCars i mk md y' hp w z t h cl rs ws))%R).
Proof.
  destruct c as [i mk md y hp w z t h cl rs ws]. simpl. intros Hw Hz.
  cbv zeta. unfold Racing.get_performance_score. simpl.
  split; [|split; [|split; [|split; [|split]]]].
  - intros hp' H. apply IZR_lt in H.
    repeat apply Rplus_lt_compat_r.
    apply Rmult_lt_compat_r; [lra|]. apply Rmult_lt_compat_r; [lra|].
    unfold Rdiv. apply Rmult_lt_compat_r; [apply Rinv_0_lt_compat; lra|exact H].
  - intros w' Hhp Hw'. apply IZR_lt in Hhp.
    repeat apply Rplus_lt_compat_r.
    apply Rmult_lt_compat_r; [lra|]. apply Rmult_lt_compat_r; [lra|].
    unfold Rdiv. apply Rmult_lt_compat_l; [lra|].
    apply Rinv_lt_contravar; [nra|lra].
  - intros z' Hz'.
    repeat apply Rplus_lt_compat_r. apply Rplus_lt_compat_l.
    apply Rmult_lt_compat_r; [lra|].
    unfold Rdiv. apply Rmult_lt_compat_l; [lra|].
    apply Rinv_lt_contravar; [nra|lra].
  - intros t' H. apply IZR_lt in H.
    repeat apply Rplus_lt_compat_r. apply Rplus_lt_compat_l.
    apply Rmult_lt_compat_r; [lra|]. unfold Rdiv.
    apply Rmult_lt_compat_r; [lra|exact H].
  - intros h' H. apply IZR_lt in H.
    repeat apply Rplus_lt_compat_r. apply Rplus_lt_compat_l.
    apply Rmult_lt_compat_r; [lra|]. unfold Rdiv.
    apply Rmult_lt_compat_r; [lra|exact H].
  - intros y' H. apply IZR_lt in H.
    apply Rplus_lt_compat_l.
    apply Rmult_lt_compat_r; [lra|]. unfold Rdiv.
    apply Rmult_lt_compat_r; [lra|lra].
Qed.

Lemma performance_score_monotone_witness :
  let score := Racing.get_performance_score in
  let '(Racing.mkCars i mk md y hp w z t h cl rs ws) := Fixtures.ferrari in
  (forall hp', hp < hp' ->
     (score Fixtures.ferrari < score (Racing.mkCars i mk md y hp' w z t h cl rs ws))%R) /\
  (forall w', 0 < hp -> (0 < w' < w)%R ->
     (score Fixtures.ferrari < score (Racing.mkCars i mk md y hp w' z t h cl rs ws))%R) /\
  (forall z', (0 < z' < z)%R ->
     (score Fixtures.ferrari < score (Racing.mkCars i mk md y hp w z' t h cl rs ws))%R) /\
  (forall t', t < t' ->
     (score Fixtures.ferrari < score (Racing.mkCars i mk md y hp w z t' h cl rs ws))%R) /\
  (forall h', h < h' ->
     (score Fixtures.ferrari < score (Racing.mkCars i mk md y hp w z t h' cl rs ws))%R) /\
  (forall y', y < y' ->
     (score Fixtures.ferrari < score (Racing.mkCars i mk md y' hp w z t h cl rs ws))%R).
Proof.
  apply performance_score_monotone; unfold Fixtures.ferrari; simpl; lra.
Defined.

(** A ring that holds at most two boxers still does after [enter_ring]
    (of any object), [clear_ring] or [fight] (with any stats store); a
    [fight] either leaves the ring as it was or, returning normally,
    empties it. *)
Theorem ring_never_exceeds_two (ring : list Ring.Boxer) :
  (length ring <= 2)%nat ->
  (forall o, (length (snd (Ring.enter_ring o ring)) <= 2)%nat) /\
  (length (Ring.clear_ring ring) <= 2)%nat /\
  (forall (DB : Type) (upd : Z -> string -> DB -> result unit * DB) (r : R) (db : DB),
     let '(res, ring', _) := Ring.fight upd r ring db in
     (length ring' <= 2)%nat /\
     (ring' = ring \/ (exists s, res = Ok s) /\ ring' = [])).
Proof.
  intros H. split; [|split].
  - intros [b|hn]; unfold Ring.enter_ring.
    + destruct (2 <=? length ring)%nat eqn:E; simpl; [exact H|].
      apply Nat.leb_gt in E. rewrite length_app. simpl. lia.
    + destruct hn; exact H.
  - unfold Ring.clear_ring. destruct ring; simpl; lia.
  - intros DB upd r db. unfold Ring.fight.
    destruct (length ring <? 2)%nat; [split; [exact H|now left]|].
    unfold Ring.get_boxers.
    destruct ring as [|b1 [|b2 [|b3 rest]]]; try (split; [exact H|now left]).
    destruct (Ring.pick b1 b2 r) as [wi lo].
    destruct (upd (Ring.id wi) "win" db) as [[u|e] db1]; [|split; [exact H|now left]].
    destruct (upd (Ring.id lo) "loss" db1) as [[u'|e] db2]; [|split; [exact H|now left]].
    simpl. split; [lia|right; split; [eexists; reflexivity|reflexivity]].
Qed.

Lemma ring_never_exceeds_two_witness :
  (forall o, (length (snd (Ring.enter_ring o [Fixtures.al; Fixtures.bob])) <= 2)%nat) /\
  (length (Ring.clear_ring [Fixtures.al; Fixtures.bob]) <= 2)%nat /\
  (forall (DB : Type) (upd : Z -> string -> DB -> result unit * DB) (r : R) (db : DB),
     let '(res, ring', _) := Ring.fight upd r [Fixtures.al; Fixtures.bob] db in
     (length ring' <= 2)%nat /\
     (ring' = [Fixtures.al; Fixtures.bob] \/ (exists s, res = Ok s) /\ ring' = [])).
Proof. apply ring_never_exceeds_two. simpl. lia. Defined.

Lemma log_cars_missing (ids : list Z) (w : Racing.world) :
  (exists j, In j ids /\
             find (fun x => Z.eqb (Racing.id x) j) (Racing.cars_table w) = None) ->
  fst (Racing.log_cars ids w) = Err ValueError.
Proof.
  revert w. induction ids as [|a ids IH]; intros w [j [Hj Hf]]; [destruct Hj|].
  simpl. unfold Racing.get_car_by_id at 1.
  destruct (find (fun c => Z.eqb (Racing.id c) a) (Racing.cars_table w)) as [x|] eqn:Ha;
    [|reflexivity].
  unfold Racing.get_car_by_id. simpl. rewrite Ha.
  apply IH. exists j. split; [|exact Hf].
  destruct Hj as [<-|Hj]; [congruence|exact Hj].
Qed.

(** When a car already on the track has lost its row, [enter_track] of a
    car that has one raises [ValueError] from its log line, after it has
    put the new car on the track and in the cache. *)
Theorem enter_track_fails_after_append (now : instant) (k j : Z) (w : Racing.world)
  (car : Racing.Cars) :
  (length (Racing.track w) < 2)%nat ->
  find (fun c => Z.eqb (Racing.id c) k) (Racing.cars_table w) = Some car ->
  In j (Racing.track w) ->
  find (fun c => Z.eqb (Racing.id c) j) (Racing.cars_table w) = None ->
  exists w',
    Racing.enter_track now k w = (Err ValueError, w') /\
    Racing.track w' = Racing.track w ++ [k] /\
    Racing._car_cache w' !! k = Some car.
Proof.
  intros Hl Hk Hj Hf. unfold Racing.enter_track.
  apply Nat.leb_gt in Hl. rewrite Hl. unfold Racing.get_car_by_id at 1. rewrite Hk.
  simpl.
  match goal with |- context [Racing.log_cars ?ids ?w3] =>
    destruct (Racing.log_cars ids w3) as [r w'] eqn:H;
    pose proof (log_cars_missing ids w3) as Hm;
    destruct (log_cars_frame _ _ _ _ H) as (T & C & _) end.
  rewrite H in Hm. simpl in Hm. rewrite Hm.
  - exists w'. split; [reflexivity|]. rewrite T, C. simpl.
    split; [reflexivity|apply lookup_insert_eq].
  - exists j. simpl. split; [apply in_or_app; now left|exact Hf].
Qed.

Lemma enter_track_fails_after_append_witness :
  exists w',
    Racing.enter_track 10 2 Fixtures.track_one_deleted = (Err ValueError, w') /\
    Racing.track w' = Racing.track Fixtures.track_one_deleted ++ [2] /\
    Racing._car_cache w' !! 2 = Some Fixtures.lambo.
Proof.
  apply (enter_track_fails_after_append 10 2 1); [simpl; lia|reflexivity|now left|reflexivity].
Defined.

(** [get_fighting_skill] is [weight * len(name) + reach / 10] less an age
    penalty of at most 2, which is 0 exactly for ages 25 to 35. *)
Theorem fighting_skill_age_penalty (b : Ring.Boxer) :
  let base := (Ring.weight b * INR (String.length (Ring.name b)) + Ring.reach b / 10)%R in
  (base - 2 <= Ring.get_fighting_skill b <= base)%R /\
  (Ring.get_fighting_skill b = base <-> 25 <= Ring.age b <= 35).
Proof.
  intros base. unfold Ring.get_fighting_skill. fold base.
  destruct (Z.ltb_spec (Ring.age b) 25); [|destruct (Z.ltb_spec 35 (Ring.age b))].
  - split; [lra|]. split; [lra|lia].
  - split; [lra|]. split; [lra|lia].
  - split; [lra|]. split; [intros _; lia|lra].
Qed.
